(** * SmuView device acquisition core

    A shallow embedding of [BaseDevice] (basedevice.cpp) and
    [HardwareDevice] (hardwaredevice.cpp): the channel registry built on
    open, the packet dispatch [data_feed_in] with its [feed_in_*] handlers,
    and [close].

    Conventions of the embedding:
    - a [shared_ptr<channels::BaseChannel>] is an index into the store
      [channels_] of Channel objects, so that two map entries holding the same
      pointer alias one object;
    - a [shared_ptr<sigrok::Channel>] is compared by address: it is the
      number [sr_ptr], and the name is an attribute of the object;
    - [std::map<string, shared_ptr<Configurable>>] is iterated by
      [feed_in_meta], so it is an association list in iteration (ascending
      key) order; the maps that are only searched are [gmap]s;
    - the [shared_ptr<UInt64Property>] [samplerate_prop_] points into a
      Configurable: it is a reference to the Samplerate property of an
      entry of [configurable_map_], read anew for every analog packet;
    - a slot connected to [channel_added] runs inside [Q_EMIT]: what it
      finds in the registry is kept in [slot_views_];
    - [QDateTime::currentMSecsSinceEpoch()] is an input: [clock i] is the
      i-th reading taken while one packet is handled;
    - a [double] timestamp [msecs / (double)1000] is kept as the exact
      quotient [msecs # 1000];
    - the [float] samples of an analog payload are only moved, never
      computed with. *)

From Stdlib Require Import ZArith Floats.
From Stdlib Require QArith.
From stdpp Require Import gmap strings list fin_maps sorting.

Abbreviation Q := QArith_base.Q.
Abbreviation Qmake := QArith_base.Qmake.
Abbreviation Qle := QArith_base.Qle.

(** ** Data model *)

(** [enum class AquisitionState] (declared in basedevice.hpp). *)
Inductive AquisitionState := Stopped | Running | Paused.

#[global] Instance AquisitionState_eq_dec : EqDecision AquisitionState.
Proof. solve_decision. Defined.

(** A [shared_ptr<channels::BaseChannel>]: an address in [channels_]. *)
Abbreviation ptr := nat.

(** A [sigrok::Channel] as the driver hands it out. *)
Record sr_channel := {
  sr_ptr : nat;
  sr_name : string;
}.

(** A [sigrok::ChannelGroup]: its name, its channels, the ids of its
    configuration keys and the sample rate it can get, if any. *)
Record sr_channel_group := {
  cg_name : string;
  cg_channels : list sr_channel;
  cg_config_keys : list nat;
  cg_samplerate : option Z;
}.

(** One entry of a Signal: a value with the annotations of the push that
    appended it. *)
Record sample := {
  s_timestamp : Q;
  s_samplerate : Z;
  s_value : float;
}.

(** A [channels::HardwareChannel]. *)
Record Channel := {
  name : string;
  channel_group_names : gset string;
  channel_sr_channel : nat;
  channel_start_timestamp_ : Q;
  actual_signal_ : list sample;
}.

(** The payload of a Meta packet: configuration key ids and values. *)
Definition Meta := list (nat * Z).

(** A [devices::Configurable]: its index, the value of its Samplerate
    property if it has one, and the Meta payloads fed to it. *)
Record Configurable := {
  cf_index : nat;
  cf_samplerate : option Z;
  cf_meta : list Meta;
}.

(** A [shared_ptr<data::properties::UInt64Property>] to the Samplerate
    property of a Configurable: of the one that [configurable_map_] holds
    under [key], or of one that no map holds, so that no packet reaches it
    and its value stays. *)
Inductive UInt64Property_ptr :=
| property_of (key : string)
| property_apart (value : Z).

(** A [sigrok::Analog] payload; [an_data] is what [get_data_as_float]
    writes, [num_samples * channels.size()] interleaved values. *)
Record Analog := {
  an_channels : list sr_channel;
  num_samples : nat;
  an_data : list float;
}.

Inductive Packet :=
| SR_DF_HEADER
| SR_DF_META (sr_meta : Meta)
| SR_DF_TRIGGER
| SR_DF_LOGIC
| SR_DF_ANALOG (sr_analog : Analog)
| SR_DF_FRAME_BEGIN
| SR_DF_FRAME_END
| SR_DF_END
| SR_DF_OTHER (id : nat).

(** Qt signals emitted by the device. *)
Inductive qt_signal := channel_added (channel : ptr).

#[global] Instance qt_signal_eq_dec : EqDecision qt_signal.
Proof. solve_decision. Defined.

(** What a slot connected to a signal of the device finds in the channel
    registry when it is called. *)
Record slot_view := {
  sv_channel_name_map : gmap string ptr;
  sv_channel_group_name_map : gmap string (list ptr);
  sv_channels : list Channel;
}.

(** The [sigrok::Session] owned by the device. *)
Record Session := {
  ses_devices : list nat;
  ses_datafeed_callbacks : nat;
  ses_stopped : bool;
}.

Record BaseDevice := {
  sr_device_ : nat;
  sr_session_ : Session;
  aquisition_thread_ : bool;  (* joinable *)
  device_open_ : bool;
  aquisition_state_ : AquisitionState;
  aquisition_start_timestamp_ : Q;
  frame_began_ : bool;
  frame_start_timestamp_ : Q;
  samplerate_prop_ : option UInt64Property_ptr;  (* None: nullptr *)
  cur_samplerate_ : Z;
  next_configurable_index_ : nat;
  configurable_map_ : list (string * Configurable);
  channel_name_map_ : gmap string ptr;
  channel_group_name_map_ : gmap string (list ptr);
  sr_channel_map_ : gmap nat (option ptr);  (* Some None: a null shared_ptr *)
  channels_ : list Channel;
  emitted_ : list qt_signal;
  slot_views_ : list slot_view;  (* one per emitted signal *)
}.

(** The constructor [BaseDevice::BaseDevice]: it sets [sr_device_],
    [device_open_], [frame_began_], the start timestamp and the session.
    [state0] stands for the value of [aquisition_state_], which it does not
    set; the other members start empty, null or zero. *)
Definition BaseDevice_new (sr_device : nat) (session_start_timestamp : Q)
    (state0 : AquisitionState) : BaseDevice :=
  {| sr_device_ := sr_device;
     sr_session_ := {| ses_devices := []; ses_datafeed_callbacks := 0;
                       ses_stopped := false |};
     aquisition_thread_ := false;
     device_open_ := false;
     aquisition_state_ := state0;
     aquisition_start_timestamp_ := session_start_timestamp;
     frame_began_ := false;
     frame_start_timestamp_ := Qmake 0 1;
     samplerate_prop_ := None;
     cur_samplerate_ := 0;
     next_configurable_index_ := 0;
     configurable_map_ := [];
     channel_name_map_ := ∅;
     channel_group_name_map_ := ∅;
     sr_channel_map_ := ∅;
     channels_ := [];
     emitted_ := [];
     slot_views_ := [] |}.

(** ** Assignments to the members of a device

    [set_m v d] is [d] after [m = v]. *)

Definition set_sr_session_ v (d : BaseDevice) : BaseDevice :=
  {| sr_device_ := sr_device_ d; sr_session_ := v;
     aquisition_thread_ := aquisition_thread_ d;
     device_open_ := device_open_ d;
     aquisition_state_ := aquisition_state_ d;
     aquisition_start_timestamp_ := aquisition_start_timestamp_ d;
     frame_began_ := frame_began_ d;
     frame_start_timestamp_ := frame_start_timestamp_ d;
     samplerate_prop_ := samplerate_prop_ d;
     cur_samplerate_ := cur_samplerate_ d;
     next_configurable_index_ := next_configurable_index_ d;
     configurable_map_ := configurable_map_ d;
     channel_name_map_ := channel_name_map_ d;
     channel_group_name_map_ := channel_group_name_map_ d;
     sr_channel_map_ := sr_channel_map_ d; channels_ := channels_ d;
     emitted_ := emitted_ d;
     slot_views_ := slot_views_ d |}.

Definition set_aquisition_thread_ v (d : BaseDevice) : BaseDevice :=
  {| sr_device_ := sr_device_ d; sr_session_ := sr_session_ d;
     aquisition_thread_ := v; device_open_ := device_open_ d;
     aquisition_state_ := aquisition_state_ d;
     aquisition_start_timestamp_ := aquisition_start_timestamp_ d;
     frame_began_ := frame_began_ d;
     frame_start_timestamp_ := frame_start_timestamp_ d;
     samplerate_prop_ := samplerate_prop_ d;
     cur_samplerate_ := cur_samplerate_ d;
     next_configurable_index_ := next_configurable_index_ d;
     configurable_map_ := configurable_map_ d;
     channel_name_map_ := channel_name_map_ d;
     channel_group_name_map_ := channel_group_name_map_ d;
     sr_channel_map_ := sr_channel_map_ d; channels_ := channels_ d;
     emitted_ := emitted_ d;
     slot_views_ := slot_views_ d |}.

Definition set_device_open_ v (d : BaseDevice) : BaseDevice :=
  {| sr_device_ := sr_device_ d; sr_session_ := sr_session_ d;
     aquisition_thread_ := aquisition_thread_ d; device_open_ := v;
     aquisition_state_ := aquisition_state_ d;
     aquisition_start_timestamp_ := aquisition_start_timestamp_ d;
     frame_began_ := frame_began_ d;
     frame_start_timestamp_ := frame_start_timestamp_ d;
     samplerate_prop_ := samplerate_prop_ d;
     cur_samplerate_ := cur_samplerate_ d;
     next_configurable_index_ := next_configurable_index_ d;
     configurable_map_ := configurable_map_ d;
     channel_name_map_ := channel_name_map_ d;
     channel_group_name_map_ := channel_group_name_map_ d;
     sr_channel_map_ := sr_channel_map_ d; channels_ := channels_ d;
     emitted_ := emitted_ d;
     slot_views_ := slot_views_ d |}.

Definition set_aquisition_state_ v (d : BaseDevice) : BaseDevice :=
  {| sr_device_ := sr_device_ d; sr_session_ := sr_session_ d;
     aquisition_thread_ := aquisition_thread_ d;
     device_open_ := device_open_ d; aquisition_state_ := v;
     aquisition_start_timestamp_ := aquisition_start_timestamp_ d;
     frame_began_ := frame_began_ d;
     frame_start_timestamp_ := frame_start_timestamp_ d;
     samplerate_prop_ := samplerate_prop_ d;
     cur_samplerate_ := cur_samplerate_ d;
     next_configurable_index_ := next_configurable_index_ d;
     configurable_map_ := configurable_map_ d;
     channel_name_map_ := channel_name_map_ d;
     channel_group_name_map_ := channel_group_name_map_ d;
     sr_channel_map_ := sr_channel_map_ d; channels_ := channels_ d;
     emitted_ := emitted_ d;
     slot_views_ := slot_views_ d |}.

Definition set_frame_began_ v (d : BaseDevice) : BaseDevice :=
  {| sr_device_ := sr_device_ d; sr_session_ := sr_session_ d;
     aquisition_thread_ := aquisition_thread_ d;
     device_open_ := device_open_ d;
     aquisition_state_ := aquisition_state_ d;
     aquisition_start_timestamp_ := aquisition_start_timestamp_ d;
     frame_began_ := v; frame_start_timestamp_ := frame_start_timestamp_ d;
     samplerate_prop_ := samplerate_prop_ d;
     cur_samplerate_ := cur_samplerate_ d;
     next_configurable_index_ := next_configurable_index_ d;
     configurable_map_ := configurable_map_ d;
     channel_name_map_ := channel_name_map_ d;
     channel_group_name_map_ := channel_group_name_map_ d;
     sr_channel_map_ := sr_channel_map_ d; channels_ := channels_ d;
     emitted_ := emitted_ d;
     slot_views_ := slot_views_ d |}.

Definition set_frame_start_timestamp_ v (d : BaseDevice) : BaseDevice :=
  {| sr_device_ := sr_device_ d; sr_session_ := sr_session_ d;
     aquisition_thread_ := aquisition_thread_ d;
     device_open_ := device_open_ d;
     aquisition_state_ := aquisition_state_ d;
     aquisition_start_timestamp_ := aquisition_start_timestamp_ d;
     frame_began_ := frame_began_ d; frame_start_timestamp_ := v;
     samplerate_prop_ := samplerate_prop_ d;
     cur_samplerate_ := cur_samplerate_ d;
     next_configurable_index_ := next_configurable_index_ d;
     configurable_map_ := configurable_map_ d;
     channel_name_map_ := channel_name_map_ d;
     channel_group_name_map_ := channel_group_name_map_ d;
     sr_channel_map_ := sr_channel_map_ d; channels_ := channels_ d;
     emitted_ := emitted_ d;
     slot_views_ := slot_views_ d |}.

Definition set_samplerate_prop_ v (d : BaseDevice) : BaseDevice :=
  {| sr_device_ := sr_device_ d; sr_session_ := sr_session_ d;
     aquisition_thread_ := aquisition_thread_ d;
     device_open_ := device_open_ d;
     aquisition_state_ := aquisition_state_ d;
     aquisition_start_timestamp_ := aquisition_start_timestamp_ d;
     frame_began_ := frame_began_ d;
     frame_start_timestamp_ := frame_start_timestamp_ d;
     samplerate_prop_ := v; cur_samplerate_ := cur_samplerate_ d;
     next_configurable_index_ := next_configurable_index_ d;
     configurable_map_ := configurable_map_ d;
     channel_name_map_ := channel_name_map_ d;
     channel_group_name_map_ := channel_group_name_map_ d;
     sr_channel_map_ := sr_channel_map_ d; channels_ := channels_ d;
     emitted_ := emitted_ d;
     slot_views_ := slot_views_ d |}.

Definition set_cur_samplerate_ v (d : BaseDevice) : BaseDevice :=
  {| sr_device_ := sr_device_ d; sr_session_ := sr_session_ d;
     aquisition_thread_ := aquisition_thread_ d;
     device_open_ := device_open_ d;
     aquisition_state_ := aquisition_state_ d;
     aquisition_start_timestamp_ := aquisition_start_timestamp_ d;
     frame_began_ := frame_began_ d;
     frame_start_timestamp_ := frame_start_timestamp_ d;
     samplerate_prop_ := samplerate_prop_ d; cur_samplerate_ := v;
     next_configurable_index_ := next_configurable_index_ d;
     configurable_map_ := configurable_map_ d;
     channel_name_map_ := channel_name_map_ d;
     channel_group_name_map_ := channel_group_name_map_ d;
     sr_channel_map_ := sr_channel_map_ d; channels_ := channels_ d;
     emitted_ := emitted_ d;
     slot_views_ := slot_views_ d |}.

Definition set_next_configurable_index_ v (d : BaseDevice) : BaseDevice :=
  {| sr_device_ := sr_device_ d; sr_session_ := sr_session_ d;
     aquisition_thread_ := aquisition_thread_ d;
     device_open_ := device_open_ d;
     aquisition_state_ := aquisition_state_ d;
     aquisition_start_timestamp_ := aquisition_start_timestamp_ d;
     frame_began_ := frame_began_ d;
     frame_start_timestamp_ := frame_start_timestamp_ d;
     samplerate_prop_ := samplerate_prop_ d;
     cur_samplerate_ := cur_samplerate_ d; next_configurable_index_ := v;
     configurable_map_ := configurable_map_ d;
     channel_name_map_ := channel_name_map_ d;
     channel_group_name_map_ := channel_group_name_map_ d;
     sr_channel_map_ := sr_channel_map_ d; channels_ := channels_ d;
     emitted_ := emitted_ d;
     slot_views_ := slot_views_ d |}.

Definition set_configurable_map_ v (d : BaseDevice) : BaseDevice :=
  {| sr_device_ := sr_device_ d; sr_session_ := sr_session_ d;
     aquisition_thread_ := aquisition_thread_ d;
     device_open_ := device_open_ d;
     aquisition_state_ := aquisition_state_ d;
     aquisition_start_timestamp_ := aquisition_start_timestamp_ d;
     frame_began_ := frame_began_ d;
     frame_start_timestamp_ := frame_start_timestamp_ d;
     samplerate_prop_ := samplerate_prop_ d;
     cur_samplerate_ := cur_samplerate_ d;
     next_configurable_index_ := next_configurable_index_ d;
     configurable_map_ := v; channel_name_map_ := channel_name_map_ d;
     channel_group_name_map_ := channel_group_name_map_ d;
     sr_channel_map_ := sr_channel_map_ d; channels_ := channels_ d;
     emitted_ := emitted_ d;
     slot_views_ := slot_views_ d |}.

Definition set_channel_name_map_ v (d : BaseDevice) : BaseDevice :=
  {| sr_device_ := sr_device_ d; sr_session_ := sr_session_ d;
     aquisition_thread_ := aquisition_thread_ d;
     device_open_ := device_open_ d;
     aquisition_state_ := aquisition_state_ d;
     aquisition_start_timestamp_ := aquisition_start_timestamp_ d;
     frame_began_ := frame_began_ d;
     frame_start_timestamp_ := frame_start_timestamp_ d;
     samplerate_prop_ := samplerate_prop_ d;
     cur_samplerate_ := cur_samplerate_ d;
     next_configurable_index_ := next_configurable_index_ d;
     configurable_map_ := configurable_map_ d; channel_name_map_ := v;
     channel_group_name_map_ := channel_group_name_map_ d;
     sr_channel_map_ := sr_channel_map_ d; channels_ := channels_ d;
     emitted_ := emitted_ d;
     slot_views_ := slot_views_ d |}.

Definition set_channel_group_name_map_ v (d : BaseDevice) : BaseDevice :=
  {| sr_device_ := sr_device_ d; sr_session_ := sr_session_ d;
     aquisition_thread_ := aquisition_thread_ d;
     device_open_ := device_open_ d;
     aquisition_state_ := aquisition_state_ d;
     aquisition_start_timestamp_ := aquisition_start_timestamp_ d;
     frame_began_ := frame_began_ d;
     frame_start_timestamp_ := frame_start_timestamp_ d;
     samplerate_prop_ := samplerate_prop_ d;
     cur_samplerate_ := cur_samplerate_ d;
     next_configurable_index_ := next_configurable_index_ d;
     configurable_map_ := configurable_map_ d;
     channel_name_map_ := channel_name_map_ d; channel_group_name_map_ := v;
     sr_channel_map_ := sr_channel_map_ d; channels_ := channels_ d;
     emitted_ := emitted_ d;
     slot_views_ := slot_views_ d |}.

Definition set_sr_channel_map_ v (d : BaseDevice) : BaseDevice :=
  {| sr_device_ := sr_device_ d; sr_session_ := sr_session_ d;
     aquisition_thread_ := aquisition_thread_ d;
     device_open_ := device_open_ d;
     aquisition_state_ := aquisition_state_ d;
     aquisition_start_timestamp_ := aquisition_start_timestamp_ d;
     frame_began_ := frame_began_ d;
     frame_start_timestamp_ := frame_start_timestamp_ d;
     samplerate_prop_ := samplerate_prop_ d;
     cur_samplerate_ := cur_samplerate_ d;
     next_configurable_index_ := next_configurable_index_ d;
     configurable_map_ := configurable_map_ d;
     channel_name_map_ := channel_name_map_ d;
     channel_group_name_map_ := channel_group_name_map_ d;
     sr_channel_map_ := v; channels_ := channels_ d;
     emitted_ := emitted_ d;
     slot_views_ := slot_views_ d |}.

Definition set_channels_ v (d : BaseDevice) : BaseDevice :=
  {| sr_device_ := sr_device_ d; sr_session_ := sr_session_ d;
     aquisition_thread_ := aquisition_thread_ d;
     device_open_ := device_open_ d;
     aquisition_state_ := aquisition_state_ d;
     aquisition_start_timestamp_ := aquisition_start_timestamp_ d;
     frame_began_ := frame_began_ d;
     frame_start_timestamp_ := frame_start_timestamp_ d;
     samplerate_prop_ := samplerate_prop_ d;
     cur_samplerate_ := cur_samplerate_ d;
     next_configurable_index_ := next_configurable_index_ d;
     configurable_map_ := configurable_map_ d;
     channel_name_map_ := channel_name_map_ d;
     channel_group_name_map_ := channel_group_name_map_ d;
     sr_channel_map_ := sr_channel_map_ d; channels_ := v;
     emitted_ := emitted_ d;
     slot_views_ := slot_views_ d |}.

Definition set_emitted_ v (d : BaseDevice) : BaseDevice :=
  {| sr_device_ := sr_device_ d; sr_session_ := sr_session_ d;
     aquisition_thread_ := aquisition_thread_ d;
     device_open_ := device_open_ d;
     aquisition_state_ := aquisition_state_ d;
     aquisition_start_timestamp_ := aquisition_start_timestamp_ d;
     frame_began_ := frame_began_ d;
     frame_start_timestamp_ := frame_start_timestamp_ d;
     samplerate_prop_ := samplerate_prop_ d;
     cur_samplerate_ := cur_samplerate_ d;
     next_configurable_index_ := next_configurable_index_ d;
     configurable_map_ := configurable_map_ d;
     channel_name_map_ := channel_name_map_ d;
     channel_group_name_map_ := channel_group_name_map_ d;
     sr_channel_map_ := sr_channel_map_ d; channels_ := channels_ d;
     emitted_ := v;
     slot_views_ := slot_views_ d |}.

Definition set_slot_views_ v (d : BaseDevice) : BaseDevice :=
  {| sr_device_ := sr_device_ d; sr_session_ := sr_session_ d;
     aquisition_thread_ := aquisition_thread_ d;
     device_open_ := device_open_ d;
     aquisition_state_ := aquisition_state_ d;
     aquisition_start_timestamp_ := aquisition_start_timestamp_ d;
     frame_began_ := frame_began_ d;
     frame_start_timestamp_ := frame_start_timestamp_ d;
     samplerate_prop_ := samplerate_prop_ d;
     cur_samplerate_ := cur_samplerate_ d;
     next_configurable_index_ := next_configurable_index_ d;
     configurable_map_ := configurable_map_ d;
     channel_name_map_ := channel_name_map_ d;
     channel_group_name_map_ := channel_group_name_map_ d;
     sr_channel_map_ := sr_channel_map_ d; channels_ := channels_ d;
     emitted_ := emitted_ d;
     slot_views_ := v |}.

(** ** The channel registry (basedevice.cpp, hardwaredevice.cpp) *)

(** [std::map::insert]: an entry that exists is not replaced. *)
Definition map_insert_new `{Countable K} {V : Type} (k : K) (v : V)
    (m : gmap K V) : gmap K V :=
  match m !! k with
  | Some _ => m
  | None => <[k := v]> m
  end.

(** Modelled from the spec: the constructor of [channels::HardwareChannel]
    is not among the sources. A new hardware Channel is named as the device
    calls it, holds the group memberships it is given, is seeded with the
    device's shared start timestamp, and its Signal has no samples yet. *)
Definition HardwareChannel_new (sr_channel : sr_channel)
    (chg_names : gset string) (channel_start_timestamp : Q) : Channel :=
  {| name := sr_name sr_channel;
     channel_group_names := chg_names;
     channel_sr_channel := sr_ptr sr_channel;
     channel_start_timestamp_ := channel_start_timestamp;
     actual_signal_ := [] |}.

(** Modelled from the spec: [BaseChannel::add_channel_group_name] is not
    among the sources; it adds the new group membership to the channel. *)
Definition add_channel_group_name (channel_group_name : string)
    (ch : Channel) : Channel :=
  {| name := name ch;
     channel_group_names := {[channel_group_name]} ∪ channel_group_names ch;
     channel_sr_channel := channel_sr_channel ch;
     channel_start_timestamp_ := channel_start_timestamp_ ch;
     actual_signal_ := actual_signal_ ch |}.

(** The channel registry of the device as a slot finds it. *)
Definition view_of (d : BaseDevice) : slot_view :=
  {| sv_channel_name_map := channel_name_map_ d;
     sv_channel_group_name_map := channel_group_name_map_ d;
     sv_channels := channels_ d |}.

(** [Q_EMIT s]. With a direct connection Qt calls the slots connected to
    [s] before [Q_EMIT] returns: [slot_views_] keeps the registry as they
    find it, one entry per emission. *)
Definition emit (s : qt_signal) (d : BaseDevice) : BaseDevice :=
  set_slot_views_ (slot_views_ d ++ [view_of d])
    (set_emitted_ (emitted_ d ++ [s]) d).

(** [BaseDevice::add_channel]. The [connect] of the start-timestamp signal
    to the channel's slot has no effect on the members modelled here. A
    [shared_ptr] always points to a live object, so the first case does not
    occur for the pointers the device passes. *)
Definition add_channel (channel : ptr) (channel_group_name : string)
    (d : BaseDevice) : BaseDevice :=
  match channels_ d !! channel with
  | None => d
  | Some ch =>
      let d1 :=
        if decide (channel_name_map_ d !! name ch = None)
        then set_channel_name_map_
               (map_insert_new (name ch) channel (channel_name_map_ d)) d
        else d in
      let d2 :=
        if decide (channel_group_name_map_ d1 !! channel_group_name = None)
        then set_channel_group_name_map_
               (map_insert_new channel_group_name []
                  (channel_group_name_map_ d1)) d1
        else d1 in
      let d3 :=
        set_channel_group_name_map_
          (<[channel_group_name :=
               default [] (channel_group_name_map_ d2 !! channel_group_name)
               ++ [channel]]> (channel_group_name_map_ d2)) d2 in
      let d4 :=
        if decide (channel_group_name ∈ channel_group_names ch)
        then d3
        else set_channels_
               (<[channel := add_channel_group_name channel_group_name ch]>
                  (channels_ d3)) d3 in
      emit (channel_added channel) d4
  end.

(** [BaseDevice::add_sr_channel]; [make_shared] allocates the next free
    address of the store. *)
Definition add_sr_channel (sr_channel : sr_channel)
    (channel_group_name : string) (d : BaseDevice) : BaseDevice * ptr :=
  match channel_name_map_ d !! sr_name sr_channel with
  | Some channel => (add_channel channel channel_group_name d, channel)
  | None =>
      let channel := length (channels_ d) in
      let d1 :=
        set_channels_
          (channels_ d ++
             [HardwareChannel_new sr_channel {[channel_group_name]}
                (aquisition_start_timestamp_ d)]) d in
      let d2 :=
        set_sr_channel_map_
          (map_insert_new (sr_ptr sr_channel) (Some channel)
             (sr_channel_map_ d1)) d1 in
      (add_channel channel channel_group_name d2, channel)
  end.

(** The first loop of [HardwareDevice::init_channels]: the channels of the
    channel groups, in the order of the driver's group map. The test that
    the map is not empty, around the loop, makes no difference. *)
Definition init_group_channels (sr_channel_groups : list sr_channel_group)
    (d : BaseDevice) : BaseDevice :=
  foldl (λ d sr_cg,
           foldl (λ d sr_channel, (add_sr_channel sr_channel (cg_name sr_cg) d).1)
             d (cg_channels sr_cg))
    d sr_channel_groups.

(** The second loop: the channels that are in no channel group. *)
Definition init_other_channels (sr_channels : list sr_channel)
    (d : BaseDevice) : BaseDevice :=
  foldl (λ d sr_channel,
           if decide (is_Some (sr_channel_map_ d !! sr_ptr sr_channel))
           then d
           else (add_sr_channel sr_channel "" d).1)
    d sr_channels.

(** [HardwareDevice::init_channels]. *)
Definition init_channels (sr_channel_groups : list sr_channel_group)
    (sr_channels : list sr_channel) (d : BaseDevice) : BaseDevice :=
  init_other_channels sr_channels (init_group_channels sr_channel_groups d).

(** ** Packet handlers (hardwaredevice.cpp) *)

(** How the handling of a packet ends. [NullChannel] is a member call
    through a null [shared_ptr], which is undefined behaviour; the state is
    the one reached when it happens. *)
Inductive outcome :=
| Done (d : BaseDevice)
| AssertionFailed (d : BaseDevice)
| NullChannel (d : BaseDevice).

(** Builds with and without [NDEBUG]. *)
Inductive build := AssertsOn | NDEBUG.

(** [assert(expression)]: [true] when execution goes on. *)
Definition cxx_assert (bld : build) (expression : bool) : bool :=
  match bld with
  | NDEBUG => true
  | AssertsOn => expression
  end.

(** A string literal used as a condition is a non-null pointer. *)
Definition string_literal_as_condition : bool := true.

Definition feed_in_header (d : BaseDevice) : BaseDevice := d.

Definition feed_in_trigger (d : BaseDevice) : BaseDevice := d.

Definition feed_in_logic (d : BaseDevice) : BaseDevice := d.

(** The id of the configuration key [sigrok::ConfigKey::SAMPLERATE].
    Configuration keys are told apart by their ids; which number a key has
    plays no role. *)
Definition SR_CONF_SAMPLERATE : nat := 0.

(** The value a Meta payload gives for [key], the last one if it gives
    several. *)
Definition Meta_value (key : nat) (sr_meta : Meta) : option Z :=
  snd <$> last (filter (λ e, e.1 = key) sr_meta).

(** Modelled from the spec: [Configurable::feed_in_meta] is not among the
    sources. The Configurable takes the configuration-change notification:
    its properties are updated from the payload, of which the model has
    the Samplerate property, and the model keeps the payloads it was fed,
    in order. *)
Definition Configurable_feed_in_meta (sr_meta : Meta) (c : Configurable)
    : Configurable :=
  {| cf_index := cf_index c;
     cf_samplerate :=
       match cf_samplerate c, Meta_value SR_CONF_SAMPLERATE sr_meta with
       | Some _, Some value => Some value
       | samplerate, _ => samplerate
       end;
     cf_meta := cf_meta c ++ [sr_meta] |}.

(** The loop of [HardwareDevice::feed_in_meta] over the entries that are
    left, [size] being [configurable_map_.size()]. *)
Fixpoint feed_in_meta_loop (size : nat) (sr_meta : Meta)
    (c_pairs : list (string * Configurable)) : list (string * Configurable) :=
  match c_pairs with
  | [] => []
  | c_pair :: rest =>
      if decide (c_pair.1 = "" ∧ 1 < size)
      then c_pair :: feed_in_meta_loop size sr_meta rest
      else (c_pair.1, Configurable_feed_in_meta sr_meta c_pair.2) :: rest
  end.

Definition feed_in_meta (sr_meta : Meta) (d : BaseDevice) : BaseDevice :=
  set_configurable_map_
    (feed_in_meta_loop (length (configurable_map_ d)) sr_meta
       (configurable_map_ d)) d.

Definition feed_in_frame_begin (clock : nat → Z) (d : BaseDevice)
    : BaseDevice :=
  set_frame_began_ true
    (set_frame_start_timestamp_ (Qmake (clock 0) 1000) d).

Definition feed_in_frame_end (d : BaseDevice) : BaseDevice :=
  set_frame_began_ false d.

(** Modelled from the spec: [HardwareChannel::push_interleaved_samples] is
    not among the sources. The channel appends to its current Signal the
    strided slice of the interleaved buffer that starts at [channel_data]:
    [sample_count] values, [channel_count] apart, each annotated with the
    timestamp and the sample rate of the push. *)
Definition push_interleaved_samples (data : list float) (channel_data : nat)
    (sample_count channel_count : nat) (timestamp : Q) (samplerate : Z)
    (ch : Channel) : Channel :=
  {| name := name ch;
     channel_group_names := channel_group_names ch;
     channel_sr_channel := channel_sr_channel ch;
     channel_start_timestamp_ := channel_start_timestamp_ ch;
     actual_signal_ :=
       actual_signal_ ch ++
       map (λ k, {| s_timestamp := timestamp;
                    s_samplerate := samplerate;
                    s_value := nth (channel_data + k * channel_count) data
                                 0%float |})
         (seq 0 sample_count) |}.

(** The loop of [HardwareDevice::feed_in_analog] over the channels that are
    left. [channel_data] is the offset of the pointer into the buffer; it
    is also the number of earlier iterations, hence of earlier readings of
    the clock by a packet outside a frame. *)
Fixpoint feed_in_analog_loop (bld : build) (sr_analog : Analog)
    (clock : nat → Z) (samplerate : Z) (channel_data : nat)
    (sr_channels : list sr_channel) (d : BaseDevice) : outcome :=
  match sr_channels with
  | [] => Done d
  | sr_channel :: rest =>
      if (if decide (sr_channel_map_ d !! sr_ptr sr_channel = None)
          then cxx_assert bld string_literal_as_condition
          else true)
      then
        (* sr_channel_map_[sr_channel] adds a null entry for a new key *)
        let d1 :=
          set_sr_channel_map_
            (map_insert_new (sr_ptr sr_channel) None (sr_channel_map_ d)) d in
        match sr_channel_map_ d1 !! sr_ptr sr_channel with
        | Some (Some channel) =>
            let timestamp :=
              if frame_began_ d1 then frame_start_timestamp_ d1
              else Qmake (clock channel_data) 1000 in
            let d2 :=
              set_channels_
                (alter (push_interleaved_samples (an_data sr_analog)
                          channel_data (num_samples sr_analog)
                          (length (an_channels sr_analog)) timestamp
                          samplerate)
                   channel (channels_ d1)) d1 in
            feed_in_analog_loop bld sr_analog clock samplerate
              (S channel_data) rest d2
        | _ => NullChannel d1
        end
      else AssertionFailed d
  end.

(** [std::map<string, V>::find] on the association list. *)
Fixpoint smap_find {V : Type} (k : string) (m : list (string * V))
    : option V :=
  match m with
  | [] => None
  | (k', v) :: rest => if decide (k' = k) then Some v else smap_find k rest
  end.

(** Modelled from the spec: [UInt64Property::uint64_value] is not among the
    sources; it gives the value the property has when it is read. The
    pointers the device makes point to a property that exists; [0] stands
    for a pointer to none. *)
Definition uint64_value (prop : UInt64Property_ptr) (d : BaseDevice) : Z :=
  match prop with
  | property_of key =>
      default 0%Z (smap_find key (configurable_map_ d) ≫= cf_samplerate)
  | property_apart value => value
  end.

(** [HardwareDevice::feed_in_analog]. The buffer is taken to be allocated:
    [bad_alloc] is not modelled. *)
Definition feed_in_analog (bld : build) (sr_analog : Analog)
    (clock : nat → Z) (d : BaseDevice) : outcome :=
  if decide (num_samples sr_analog = 0) then Done d
  else
    let samplerate :=
      match samplerate_prop_ d with
      | Some prop => uint64_value prop d
      | None => 0%Z
      end in
    feed_in_analog_loop bld sr_analog clock samplerate 0
      (an_channels sr_analog) d.

(** ** Packet dispatch (basedevice.cpp) *)

(** [BaseDevice::data_feed_in]. Both asserted pointers are non-null for the
    packets of the model. The [SR_DF_END] case locks and unlocks
    [data_mutex_] and does nothing else. *)
Definition data_feed_in (bld : build) (sr_device : nat) (sr_packet : Packet)
    (clock : nat → Z) (d : BaseDevice) : outcome :=
  if decide (sr_device ≠ sr_device_ d) then Done d
  else
    match sr_packet with
    | SR_DF_HEADER => Done (feed_in_header d)
    | SR_DF_META sr_meta => Done (feed_in_meta sr_meta d)
    | SR_DF_TRIGGER => Done (feed_in_trigger d)
    | SR_DF_LOGIC =>
        if decide (aquisition_state_ d ≠ Running) then Done d
        else Done (feed_in_logic d)
    | SR_DF_ANALOG sr_analog =>
        if decide (aquisition_state_ d ≠ Running) then Done d
        else feed_in_analog bld sr_analog clock d
    | SR_DF_FRAME_BEGIN => Done (feed_in_frame_begin clock d)
    | SR_DF_FRAME_END => Done (feed_in_frame_end d)
    | SR_DF_END => Done d
    | SR_DF_OTHER _ => Done d
    end.

(** One call of the datafeed callback: the device and the packet the
    session passes, and the clock readings taken while it is handled. *)
Record delivery := {
  dl_device : nat;
  dl_packet : Packet;
  dl_clock : nat → Z;
}.

(** The session calls the callback once per packet, in order, as long as
    the handling of each packet completes. *)
Fixpoint data_feed (bld : build) (ps : list delivery) (d : BaseDevice)
    : outcome :=
  match ps with
  | [] => Done d
  | p :: rest =>
      match data_feed_in bld (dl_device p) (dl_packet p) (dl_clock p) d with
      | Done d' => data_feed bld rest d'
      | o => o
      end
  end.

(** ** Lifecycle (basedevice.cpp) *)

Definition start_aquisition (d : BaseDevice) : BaseDevice :=
  set_aquisition_state_ Running d.

Definition pause_aquisition (d : BaseDevice) : BaseDevice :=
  set_aquisition_state_ Paused d.

(** A call either returns or throws. *)
Inductive completion (A : Type) :=
| Returned (a : A)
| Threw (what : string).
Arguments Returned {A} a.
Arguments Threw {A} what.

#[global] Instance completion_bind : MBind completion := λ A B k c,
  match c with
  | Returned a => k a
  | Threw what => Threw what
  end.

(** [try { c } catch (...) { }] around a call whose effect is kept in [a]
    either way. *)
Definition try_catch_all (a : BaseDevice) (c : completion unit)
    : completion BaseDevice :=
  match c with
  | Returned _ => Returned a
  | Threw _ => Returned a
  end.

(** What the driver layer answers: whether [sr_device_->open()] and
    [sr_device_->close()] fail, the channel topology (the channel groups in
    the order of the driver's map, by name), the ids of the device's own
    configuration keys, and the sample rate the device-level Configurable
    can get, if any. The calls on the session are made outside any handler
    and are taken to return. *)
Record Driver := {
  drv_open_error : option string;
  drv_close_error : option string;
  drv_channel_groups : list sr_channel_group;
  drv_channels : list sr_channel;
  drv_config_keys : list nat;
  drv_samplerate : option Z;
}.

Definition sr_device_open (drv : Driver) : completion unit :=
  match drv_open_error drv with
  | Some what => Threw what
  | None => Returned ()
  end.

Definition sr_device_close (drv : Driver) : completion unit :=
  match drv_close_error drv with
  | Some what => Threw what
  | None => Returned ()
  end.

Definition session_stop (s : Session) : Session :=
  {| ses_devices := ses_devices s;
     ses_datafeed_callbacks := ses_datafeed_callbacks s;
     ses_stopped := true |}.

Definition session_remove_datafeed_callbacks (s : Session) : Session :=
  {| ses_devices := ses_devices s;
     ses_datafeed_callbacks := 0;
     ses_stopped := ses_stopped s |}.

Definition session_remove_devices (s : Session) : Session :=
  {| ses_devices := [];
     ses_datafeed_callbacks := ses_datafeed_callbacks s;
     ses_stopped := ses_stopped s |}.

Definition session_add_device (sr_device : nat) (s : Session) : Session :=
  {| ses_devices := ses_devices s ++ [sr_device];
     ses_datafeed_callbacks := ses_datafeed_callbacks s;
     ses_stopped := ses_stopped s |}.

Definition session_add_datafeed_callback (s : Session) : Session :=
  {| ses_devices := ses_devices s;
     ses_datafeed_callbacks := S (ses_datafeed_callbacks s);
     ses_stopped := ses_stopped s |}.

(** [BaseDevice::close]; the two [qWarning] lines write to the log only. *)
Definition close (drv : Driver) (d : BaseDevice) : completion BaseDevice :=
  if negb (device_open_ d) then Returned d
  else
    let d1 := set_sr_session_ (session_stop (sr_session_ d)) d in
    let d2 := if aquisition_thread_ d1
              then set_aquisition_thread_ false d1 else d1 in
    let d3 := set_sr_session_
                (session_remove_datafeed_callbacks (sr_session_ d2)) d2 in
    let d4 := set_aquisition_state_ Stopped d3 in
    d5 ← try_catch_all d4 (sr_device_close drv);
    let d6 := set_sr_session_ (session_remove_devices (sr_session_ d5)) d5 in
    Returned (set_device_open_ false d6).

(** [BaseDevice::open], with the [init_channels] of [HardwareDevice]. The
    error handler it stores is used by the acquisition thread only. The
    thread it starts runs the session; its body is not part of this
    sequential model. *)
Definition open (drv : Driver) (d : BaseDevice) : completion BaseDevice :=
  d0 ← (if device_open_ d then close drv d else Returned d);
  _ ← sr_device_open drv;
  let d1 := set_sr_session_
              (session_add_device (sr_device_ d0) (sr_session_ d0)) d0 in
  let d2 := init_channels (drv_channel_groups drv) (drv_channels drv) d1 in
  let d3 := set_sr_session_
              (session_add_datafeed_callback (sr_session_ d2)) d2 in
  let d4 := set_aquisition_thread_ true d3 in
  let d5 := set_aquisition_state_ Running d4 in
  Returned (set_device_open_ true d5).

(** ** The Configurable registry (hardwaredevice.cpp) *)

(** [std::map<string, V>::insert] on the association list in ascending key
    order: an entry that exists is not replaced. *)
Fixpoint smap_insert {V : Type} (k : string) (v : V)
    (m : list (string * V)) : list (string * V) :=
  match m with
  | [] => [(k, v)]
  | (k', v') :: rest =>
      match String.compare k k' with
      | Lt => (k, v) :: m
      | Eq => m
      | Gt => (k', v') :: smap_insert k v rest
      end
  end.

(** Modelled from the spec: [Configurable::create] is not among the
    sources. A new Configurable has the index it is given and a Samplerate
    property if the device or channel group it wraps can get the sample
    rate, with the value that it gets; it has been fed no Meta packet. *)
Definition Configurable_create (samplerate : option Z) (index : nat)
    : Configurable :=
  {| cf_index := index; cf_samplerate := samplerate; cf_meta := [] |}.

(** The first loop of [HardwareDevice::init_configurables]. *)
Definition init_group_configurables (sr_channel_groups : list sr_channel_group)
    (d : BaseDevice) : BaseDevice :=
  foldl (λ d sr_cg,
           match cg_config_keys sr_cg with
           | [] => d
           | _ =>
               let cg_c := Configurable_create (cg_samplerate sr_cg)
                             (next_configurable_index_ d) in
               set_configurable_map_
                 (smap_insert (cg_name sr_cg) cg_c (configurable_map_ d))
                 (set_next_configurable_index_
                    (S (next_configurable_index_ d)) d)
           end)
    d sr_channel_groups.

(** [HardwareDevice::init_configurables]. [known] tells whether
    [deviceutil::get_config_key] maps a key of the driver to a key of the
    application ([deviceutil] is not among the sources). *)
Definition init_configurables (known : nat → bool) (drv : Driver)
    (d : BaseDevice) : BaseDevice :=
  let d1 := init_group_configurables (drv_channel_groups drv) d in
  let device_ck_cnt := length (filter (λ key, known key = true)
                                 (drv_config_keys drv)) in
  if decide (device_ck_cnt = 0) then d1
  else
    let d_c := Configurable_create (drv_samplerate drv)
                 (next_configurable_index_ d1) in
    let d2 :=
      set_configurable_map_ (smap_insert "" d_c (configurable_map_ d1))
        (set_next_configurable_index_ (S (next_configurable_index_ d1)) d1) in
    match drv_samplerate drv with
    | Some value =>
        (* d_c->get_property(ConfigKey::Samplerate): d_c is in the map
           unless the key was taken *)
        let prop := match smap_find "" (configurable_map_ d1) with
                    | None => property_of ""
                    | Some _ => property_apart value
                    end in
        let d3 := set_samplerate_prop_ (Some prop) d2 in
        set_cur_samplerate_ (uint64_value prop d3) d3
    | None => d2
    end.

(** ** The acquisition thread (basedevice.cpp) *)

(** What the session does when the thread drives it: whether
    [sr_session_->start()] fails, the packets [sr_session_->run()] hands to
    the datafeed callback before it returns, and whether it then fails. *)
Record session_run := {
  run_start_error : option string;
  run_packets : list delivery;
  run_error : option string;
}.

(** [BaseDevice::aquisition_thread_proc], as the thread runs it when no
    other thread writes to the device meanwhile. The second component
    lists the messages the error handler is called with; the asserted
    handler is not null. A packet whose handling does not complete ends
    the thread with it. *)
Definition aquisition_thread_proc (bld : build) (r : session_run)
    (d : BaseDevice) : outcome * list string :=
  match run_start_error r with
  | Some what => (Done d, [what])
  | None =>
      let d1 := set_aquisition_state_ Running d in
      match data_feed bld (run_packets r) d1 with
      | Done d2 =>
          match run_error r with
          | Some what => (Done (set_aquisition_state_ Stopped d2), [what])
          | None => (Done (set_aquisition_state_ Stopped d2), [])
          end
      | o => (o, [])
      end
  end.

(** ** Names (basedevice.cpp, hardwaredevice.cpp) *)

(** What the driver tells about a device; each string may be empty. *)
Record sr_device_info := {
  vendor : string;
  model : string;
  version : string;
  serial_number : string;
  connection_id : string;
}.

(** [s.length() > 0], [!s.empty()]. *)
Definition not_empty (s : string) : bool :=
  match s with
  | EmptyString => false
  | String _ _ => true
  end.

(** [BaseDevice::name]. *)
Definition BaseDevice_name (i : sr_device_info) : string :=
  let sep := "" in
  let name := "" in
  let '(name, sep) :=
    if not_empty (vendor i) then (name +:+ vendor i, " ") else (name, sep) in
  let '(name, sep) :=
    if not_empty (model i) then (name +:+ (sep +:+ model i), " ")
    else (name, sep) in
  if not_empty (connection_id i)
  then name +:+ (((sep +:+ "(") +:+ connection_id i) +:+ ")")
  else name.

(** [BaseDevice::full_name]. *)
Definition full_name (i : sr_device_info) : string :=
  let sep := "" in
  let name := "" in
  let '(name, sep) :=
    if not_empty (vendor i) then (name +:+ vendor i, " ") else (name, sep) in
  let '(name, sep) :=
    if not_empty (model i) then ((name +:+ sep) +:+ model i, " ")
    else (name, sep) in
  let '(name, sep) :=
    if not_empty (version i) then ((name +:+ sep) +:+ version i, " ")
    else (name, sep) in
  let '(name, sep) :=
    if not_empty (serial_number i)
    then ((name +:+ sep) +:+ serial_number i, " ")
    else (name, sep) in
  if not_empty (connection_id i)
  then (((name +:+ sep) +:+ "(") +:+ connection_id i) +:+ ")"
  else name.

(** [BaseDevice::short_name]. *)
Definition short_name (i : sr_device_info) : string :=
  let sep := "" in
  let name := "" in
  let '(name, sep) :=
    if not_empty (vendor i) then (name +:+ vendor i, " ") else (name, sep) in
  if not_empty (model i) then (name +:+ sep) +:+ model i else name.

(** The test of [HardwareDevice::display_name] for another device of the
    same vendor and model among the devices of the device manager, each
    given by its sigrok device and what the driver tells about it. *)
Definition multiple_dev (devices : list (nat * sr_device_info))
    (sr_device : nat) (i : sr_device_info) : bool :=
  bool_decide
    (Exists (λ dev, vendor dev.2 = vendor i ∧ model dev.2 = model i ∧
                    dev.1 ≠ sr_device) devices).

(** [HardwareDevice::display_name]; [QStringList::join] is
    [String.concat]. *)
Definition display_name (devices : list (nat * sr_device_info))
    (sr_device : nat) (i : sr_device_info) : string :=
  let parts := [] in
  let parts := if not_empty (vendor i) then parts ++ [vendor i] else parts in
  let parts := if not_empty (model i) then parts ++ [model i] else parts in
  let parts :=
    if multiple_dev devices sr_device i then
      let parts :=
        if not_empty (version i) then parts ++ [version i] else parts in
      if not_empty (serial_number i)
      then parts ++ [("[S/N: " +:+ serial_number i) +:+ "]"]
      else if not_empty (connection_id i)
           then parts ++ [("(" +:+ connection_id i) +:+ ")"]
           else parts
    else parts in
  String.concat " " parts.

(** ** The device type (hardwaredevice.cpp) *)

(** [enum class DeviceType] (declared in deviceutil.hpp, which is not among
    the sources): the values the constructor names, and any other. *)
Inductive DeviceType :=
| PowerSupply | ElectronicLoad | DemoDev | Multimeter | SoundLevelMeter
| Thermometer | Hygrometer | Energymeter | LcrMeter | Scale | SignalGenerator
| Powermeter | Multiplexer | Unknown
| OtherDeviceType (id : nat).

#[global] Instance DeviceType_eq_dec : EqDecision DeviceType.
Proof. solve_decision. Defined.

(** The types the loop of the constructor stops at. *)
Definition device_type_of_use (dt : DeviceType) : bool :=
  match dt with
  | PowerSupply | ElectronicLoad | DemoDev | Multimeter | SoundLevelMeter
  | Thermometer | Hygrometer | Energymeter | LcrMeter | Scale
  | SignalGenerator | Powermeter | Multiplexer => true
  | Unknown | OtherDeviceType _ => false
  end.

(** The loop of [HardwareDevice::HardwareDevice] over the configuration
    keys of the driver that are left; [get_device_type] is
    [deviceutil::get_device_type], which is not among the sources. *)
Fixpoint device_type_loop (get_device_type : nat → DeviceType)
    (sr_keys : list nat) (type_ : DeviceType) : DeviceType :=
  match sr_keys with
  | [] => type_
  | sr_key :: rest =>
      let dt := get_device_type sr_key in
      if device_type_of_use dt then dt
      else device_type_loop get_device_type rest type_
  end.

(** [HardwareDevice::HardwareDevice]: the type of the device, or [None]
    when the assertion at the end stops the construction. *)
Definition HardwareDevice_type (bld : build)
    (get_device_type : nat → DeviceType) (sr_keys : list nat)
    : option DeviceType :=
  let type_ := device_type_loop get_device_type sr_keys Unknown in
  if decide (type_ = Unknown)
  then if cxx_assert bld string_literal_as_condition then Some type_
       else None
  else Some type_.

(** ** Vocabulary of the statements *)

(** The sigrok channel [c] is in the registry, as the Channel at [p]. *)
Definition registered (d : BaseDevice) (c : sr_channel) (p : ptr) : Prop :=
  sr_channel_map_ d !! sr_ptr c = Some (Some p) ∧ p < length (channels_ d).

(** The samples of the actual Signal of the Channel at [p]. *)
Definition signal_of (d : BaseDevice) (p : ptr) : list sample :=
  match channels_ d !! p with
  | Some ch => actual_signal_ ch
  | None => []
  end.

(** [ch] with [new] appended to its actual Signal. *)
Definition append_samples (new : list sample) (ch : Channel) : Channel :=
  {| name := name ch;
     channel_group_names := channel_group_names ch;
     channel_sr_channel := channel_sr_channel ch;
     channel_start_timestamp_ := channel_start_timestamp_ ch;
     actual_signal_ := actual_signal_ ch ++ new |}.

(** The timestamp [feed_in_analog] computes in iteration [i]. *)
Definition analog_timestamp (d : BaseDevice) (clock : nat → Z) (i : nat) : Q :=
  if frame_began_ d then frame_start_timestamp_ d
  else Qmake (clock i) 1000.

(** The samples one push appends: the slice of the buffer of [a] that
    starts at [off], stamped with [timestamp] and [samplerate]. *)
Definition strided_slice (a : Analog) (timestamp : Q) (samplerate : Z)
    (off : nat) : list sample :=
  map (λ k, {| s_timestamp := timestamp;
               s_samplerate := samplerate;
               s_value := nth (off + k * length (an_channels a)) (an_data a)
                            0%float |})
    (seq 0 (num_samples a)).

(** What the pushes for the Channels [ps], made in iterations [i], [i+1],
    ..., append to the Channel at [p]. *)
Fixpoint appended (a : Analog) (stamp : nat → Q) (samplerate : Z) (i : nat)
    (ps : list ptr) (p : ptr) : list sample :=
  match ps with
  | [] => []
  | q :: rest =>
      (if decide (q = p) then strided_slice a (stamp i) samplerate i else [])
      ++ appended a stamp samplerate (S i) rest p
  end.

(** The sample rate [feed_in_analog] resolves. *)
Definition resolved_samplerate (d : BaseDevice) : Z :=
  match samplerate_prop_ d with
  | Some prop => uint64_value prop d
  | None => 0%Z
  end.

(** The samples the Channel at [p] has in [d'] beyond those it has in
    [d]. *)
Definition new_samples (d d' : BaseDevice) (p : ptr) : list sample :=
  drop (length (signal_of d p)) (signal_of d' p).




(** The Configurable at position [i] of the registry [before] has been
    fed [sr_meta] in [after]. *)
Definition forwarded_to (sr_meta : Meta)
    (before after : list (string * Configurable)) (i : nat) : Prop :=
  ∃ k c, before !! i = Some (k, c) ∧
         after !! i = Some (k, Configurable_feed_in_meta sr_meta c).

(** The Channels registered under the group name [g]. *)
Definition group_list (d : BaseDevice) (g : string) : list ptr :=
  default [] (channel_group_name_map_ d !! g).

(** The name map and the store of Channels agree: a name leads to a
    Channel of that name, and every Channel is the one its name leads to.
    Hence no two Channels have one name. *)
Definition registry_inv (d : BaseDevice) : Prop :=
  (∀ n p, channel_name_map_ d !! n = Some p →
          ∃ ch, channels_ d !! p = Some ch ∧ name ch = n) ∧
  (∀ p ch, channels_ d !! p = Some ch →
           channel_name_map_ d !! name ch = Some p).

(** The Channel at [p] is the one named [n], is registered under the group
    name [g] and holds the membership of [g]. *)
Definition member_of (d : BaseDevice) (n g : string) (p : ptr) : Prop :=
  channel_name_map_ d !! n = Some p ∧
  p ∈ group_list d g ∧
  ∃ ch, channels_ d !! p = Some ch ∧ name ch = n ∧
        g ∈ channel_group_names ch.

(** In the registry as a slot finds it, the Channel at [p] is the one
    named [n], is registered under the group name [g] and holds the
    membership of [g]. *)
Definition seen_member_of (v : slot_view) (n g : string) (p : ptr) : Prop :=
  sv_channel_name_map v !! n = Some p ∧
  p ∈ default [] (sv_channel_group_name_map v !! g) ∧
  ∃ ch, sv_channels v !! p = Some ch ∧ name ch = n ∧
        g ∈ channel_group_names ch.

(** The registry of [d'] holds what the one of [d] holds. *)
Definition registry_le (d d' : BaseDevice) : Prop :=
  (∀ n p, channel_name_map_ d !! n = Some p →
          channel_name_map_ d' !! n = Some p) ∧
  (∀ g p, p ∈ group_list d g → p ∈ group_list d' g) ∧
  (∀ p ch, channels_ d !! p = Some ch →
           ∃ ch', channels_ d' !! p = Some ch' ∧ name ch' = name ch ∧
                  channel_group_names ch ⊆ channel_group_names ch').

(** The notifications emitted from [d] to [d']. *)
Definition notified (d d' : BaseDevice) : list qt_signal :=
  drop (length (emitted_ d)) (emitted_ d').

(** The calls of [add_sr_channel] the first loop of [init_channels] makes:
    every channel of every channel group, with the name of the group. *)
Definition group_listing (sr_channel_groups : list sr_channel_group)
    : list (sr_channel * string) :=
  sr_cg ← sr_channel_groups;
  (λ sr_channel, (sr_channel, cg_name sr_cg)) <$> cg_channels sr_cg.

(** The calls the second loop makes from [d]: the channels it does not find
    in [sr_channel_map_] when it comes to them, with the empty group
    name. *)
Fixpoint other_listing (sr_channels : list sr_channel) (d : BaseDevice)
    : list (sr_channel * string) :=
  match sr_channels with
  | [] => []
  | sr_channel :: rest =>
      if decide (is_Some (sr_channel_map_ d !! sr_ptr sr_channel))
      then other_listing rest d
      else (sr_channel, "") ::
           other_listing rest (add_sr_channel sr_channel "" d).1
  end.

(** A sequence of calls of [add_sr_channel]. *)
Definition add_all (calls : list (sr_channel * string)) (d : BaseDevice)
    : BaseDevice :=
  foldl (λ d call, (add_sr_channel call.1 call.2 d).1) d calls.

(** [d'] has the registry of [d]. *)
Definition same_registry (d d' : BaseDevice) : Prop :=
  channel_name_map_ d' = channel_name_map_ d ∧
  channel_group_name_map_ d' = channel_group_name_map_ d ∧
  sr_channel_map_ d' = sr_channel_map_ d ∧
  channels_ d' = channels_ d ∧
  emitted_ d' = emitted_ d.

(** The part [s] of a name, if it is not empty. *)
Definition present (s : string) : list string :=
  if not_empty s then [s] else [].

(** The part [s] of a name between [l] and [r], if [s] is not empty. *)
Definition wrapped (l s r : string) : list string :=
  if not_empty s then [(l +:+ s) +:+ r] else [].

(** What the handling of packets leaves alone: the lifecycle members, the
    pointer to the Samplerate property (not the value it points to) and
    the cached sample rate, the maps of the channel registry, the
    notifications, the number of Channels and the keys of the
    Configurables. *)
Definition untouched_by_packets (d : BaseDevice) :=
  (sr_device_ d, sr_session_ d, aquisition_thread_ d, device_open_ d,
   aquisition_state_ d, aquisition_start_timestamp_ d, samplerate_prop_ d,
   cur_samplerate_ d, next_configurable_index_ d, channel_name_map_ d,
   channel_group_name_map_ d, sr_channel_map_ d, emitted_ d,
   length (channels_ d), (configurable_map_ d).*1).

(** A packet that is not a Meta packet. *)
Definition not_meta (sr_packet : Packet) : Prop :=
  match sr_packet with
  | SR_DF_META _ => False
  | _ => True
  end.

(** The packets that are dropped or do nothing unless the acquisition state
    is Running: all but Meta and the frame markers. *)
Definition gated_or_passive (sr_packet : Packet) : Prop :=
  match sr_packet with
  | SR_DF_META _ | SR_DF_FRAME_BEGIN | SR_DF_FRAME_END => False
  | _ => True
  end.

(** The order of the keys of a [std::map<string, V>]. *)
Definition key_lt (k k' : string) : Prop := String.compare k k' = Lt.

(** The keys of [m] ascend, as a [std::map] iterates them. *)
Definition keys_ascending {V : Type} (m : list (string * V)) : Prop :=
  StronglySorted key_lt m.*1.

(** The names of the channel groups that have configuration keys. *)
Definition groups_with_keys (sr_channel_groups : list sr_channel_group)
    : list string :=
  cg_name <$> filter (λ sr_cg, cg_config_keys sr_cg ≠ []) sr_channel_groups.

(** The driver has a device configuration key that the application
    knows. *)
Definition device_key_known (known : nat → bool) (drv : Driver) : Prop :=
  Exists (λ key, known key = true) (drv_config_keys drv).

(** What the construction of the channel registry leaves alone. *)
Definition untouched_by_registry (d : BaseDevice) :=
  (sr_device_ d, sr_session_ d, aquisition_thread_ d, device_open_ d,
   aquisition_state_ d, aquisition_start_timestamp_ d, frame_began_ d,
   frame_start_timestamp_ d, samplerate_prop_ d, cur_samplerate_ d,
   next_configurable_index_ d, configurable_map_ d).

(** The channels the driver lists: those of its channel groups and those
    of the device. *)
Definition listed (drv : Driver) : list sr_channel :=
  (sr_cg ← drv_channel_groups drv; cg_channels sr_cg) ++ drv_channels drv.

(** The channels of [cs] are told apart by their names: two of one name are
    one sigrok channel, and one sigrok channel has one name. *)
Definition named_apart (cs : list sr_channel) : Prop :=
  ∀ c c', c ∈ cs → c' ∈ cs → sr_name c = sr_name c' ↔ sr_ptr c = sr_ptr c'.

(** The name map and [sr_channel_map_] agree on the channels of [cs]: the
    Channel a name leads to is the one the sigrok channel is registered
    as, and a sigrok channel that is a key of [sr_channel_map_] has its
    name in the name map. *)
Definition lookup_inv (cs : list sr_channel) (d : BaseDevice) : Prop :=
  ∀ c, c ∈ cs →
    (∀ p, channel_name_map_ d !! sr_name c = Some p → registered d c p) ∧
    (is_Some (sr_channel_map_ d !! sr_ptr c) →
     is_Some (channel_name_map_ d !! sr_name c)).

(** An analog packet names channels of [cs] only. *)
Definition analog_over (cs : list sr_channel) (sr_packet : Packet) : Prop :=
  match sr_packet with
  | SR_DF_ANALOG sr_analog => ∀ c, c ∈ an_channels sr_analog → c ∈ cs
  | _ => True
  end.

(** The Channel the name of the sigrok channel [c] leads to. *)
Definition channel_of (d : BaseDevice) (c : sr_channel) : ptr :=
  default 0 (channel_name_map_ d !! sr_name c).

(** The Channels of those of the [calls] that are for the group name
    [g]. *)
Definition calls_for (d : BaseDevice) (g : string)
    (calls : list (sr_channel * string)) : list ptr :=
  (λ call, channel_of d call.1) <$> filter (λ call, call.2 = g) calls.

(** ** A demo device

    The instances the statements below are evaluated at: a device whose
    driver lists CH1 in the channel groups A and B and CH2 in B. *)

Definition CH1 : sr_channel := {| sr_ptr := 1; sr_name := "CH1" |}.
Definition CH2 : sr_channel := {| sr_ptr := 2; sr_name := "CH2" |}.
Definition CH3 : sr_channel := {| sr_ptr := 3; sr_name := "CH3" |}.

Definition demo_group_A : sr_channel_group :=
  {| cg_name := "A"; cg_channels := [CH1]; cg_config_keys := [];
     cg_samplerate := None |}.

Definition demo_group_B : sr_channel_group :=
  {| cg_name := "B"; cg_channels := [CH1; CH2]; cg_config_keys := [3];
     cg_samplerate := None |}.

Definition demo_groups : list sr_channel_group :=
  [demo_group_A; demo_group_B].

Definition demo_driver : Driver :=
  {| drv_open_error := None;
     drv_close_error := Some "device instance not active";
     drv_channel_groups := demo_groups;
     drv_channels := [CH1; CH2];
     drv_config_keys := [1; 2];
     drv_samplerate := Some 5%Z |}.

Definition demo_new : BaseDevice := BaseDevice_new 7 (Qmake 0 1) Stopped.

(** The demo device after [open]. *)
Definition demo_open : BaseDevice :=
  match open demo_driver demo_new with
  | Returned d => d
  | Threw _ => demo_new
  end.

(** Two channels, three samples each. *)
Definition demo_analog : Analog :=
  {| an_channels := [CH1; CH2];
     num_samples := 3;
     an_data := [1; 2; 3; 4; 5; 6]%float |}.

(** A packet without samples. *)
Definition empty_analog : Analog :=
  {| an_channels := [CH1; CH3]; num_samples := 0; an_data := [] |}.

(** A packet that names a channel the registry does not hold. *)
Definition stray_analog : Analog :=
  {| an_channels := [CH3]; num_samples := 1; an_data := [1]%float |}.

(** A clock that shows [t0] at the first reading and a millisecond more at
    each further one. *)
Definition clock_from (t0 : Z) : nat → Z := λ i, (t0 + Z.of_nat i)%Z.

(** A frame of the demo device that is still open: FrameBegin at
    millisecond 1000, then a Header and an analog packet. *)
Definition demo_frame_begin : delivery :=
  {| dl_device := sr_device_ demo_open; dl_packet := SR_DF_FRAME_BEGIN;
     dl_clock := clock_from 1000 |}.

Definition demo_frame_packets : list delivery :=
  [ {| dl_device := 7; dl_packet := SR_DF_HEADER;
       dl_clock := clock_from 1500 |};
    {| dl_device := 7; dl_packet := SR_DF_ANALOG demo_analog;
       dl_clock := clock_from 2000 |} ].

Definition demo_in_frame : BaseDevice :=
  match data_feed AssertsOn (demo_frame_begin :: demo_frame_packets)
          demo_open with
  | Done d => d
  | _ => demo_open
  end.

(** The demo device after the frame has been closed. *)
Definition demo_after_frame : BaseDevice :=
  match data_feed AssertsOn
          [ {| dl_device := 7; dl_packet := SR_DF_FRAME_END;
               dl_clock := clock_from 4000 |} ] demo_in_frame with
  | Done d => d
  | _ => demo_in_frame
  end.

(** The demo device with its Configurables: the one of channel group B
    and, for the key 1 that the application knows, the one of the device. *)
Definition demo_configured : BaseDevice :=
  init_configurables (λ key, bool_decide (key = 1)) demo_driver demo_open.

(** A device whose driver has no channel groups and no configuration key
    that the application knows: it gets no Configurable. *)
Definition bare_driver : Driver :=
  {| drv_open_error := None;
     drv_close_error := None;
     drv_channel_groups := [];
     drv_channels := [CH1];
     drv_config_keys := [2];
     drv_samplerate := None |}.

Definition bare_configured : BaseDevice :=
  init_configurables (λ key, bool_decide (key = 1)) bare_driver
    (match open bare_driver (BaseDevice_new 8 (Qmake 0 1) Stopped) with
     | Returned d => d
     | Threw _ => BaseDevice_new 8 (Qmake 0 1) Stopped
     end).

(** A device whose only Configurable is the one of the device, with a
    sample rate of 5. *)
Definition lone_driver : Driver :=
  {| drv_open_error := None;
     drv_close_error := None;
     drv_channel_groups := [];
     drv_channels := [CH1];
     drv_config_keys := [SR_CONF_SAMPLERATE];
     drv_samplerate := Some 5%Z |}.

Definition lone_configured : BaseDevice :=
  init_configurables (λ key, bool_decide (key = SR_CONF_SAMPLERATE))
    lone_driver
    (match open lone_driver (BaseDevice_new 9 (Qmake 0 1) Stopped) with
     | Returned d => d
     | Threw _ => BaseDevice_new 9 (Qmake 0 1) Stopped
     end).

(** The device reports a sample rate of 1000, then one sample of CH1. *)
Definition rate_packets : list delivery :=
  [ {| dl_device := 9;
       dl_packet := SR_DF_META [(SR_CONF_SAMPLERATE, 1000%Z)];
       dl_clock := clock_from 100 |};
    {| dl_device := 9;
       dl_packet :=
         SR_DF_ANALOG {| an_channels := [CH1]; num_samples := 1;
                         an_data := [1]%float |};
       dl_clock := clock_from 200 |} ].

(** A Meta payload: key 1 has got the value 10. *)
Definition demo_meta : Meta := [(1, 10%Z)].

(** Two power supplies of one vendor and model, and a lone multimeter. *)
Definition supply_1 : sr_device_info :=
  {| vendor := "Acme"; model := "X1"; version := "1.0";
     serial_number := "A17"; connection_id := "ttyUSB0" |}.

Definition supply_2 : sr_device_info :=
  {| vendor := "Acme"; model := "X1"; version := "1.0";
     serial_number := "B42"; connection_id := "" |}.

Definition meter : sr_device_info :=
  {| vendor := ""; model := "DMM"; version := "";
     serial_number := "77"; connection_id := "usb/1-2" |}.

Definition demo_devices : list (nat * sr_device_info) :=
  [(7, supply_1); (8, supply_2); (9, meter)].

(** Two Meta packets and a Header for the demo device with its two
    Configurables. *)
Definition demo_meta_packets : list delivery :=
  [ {| dl_device := 7; dl_packet := SR_DF_META demo_meta;
       dl_clock := clock_from 100 |};
    {| dl_device := 7; dl_packet := SR_DF_HEADER;
       dl_clock := clock_from 200 |};
    {| dl_device := 7; dl_packet := SR_DF_META [(2, 20%Z)];
       dl_clock := clock_from 300 |} ].

Definition demo_after_meta : BaseDevice :=
  match data_feed AssertsOn demo_meta_packets demo_configured with
  | Done d => d
  | _ => demo_configured
  end.

(** A session that hands the demo device a frame and then fails, and one
    that does not start. *)
Definition demo_run : session_run :=
  {| run_start_error := None;
     run_packets := demo_frame_begin :: demo_frame_packets;
     run_error := Some "device disconnected" |}.

Definition failed_start : session_run :=
  {| run_start_error := Some "device busy";
     run_packets := [];
     run_error := None |}.

(** A driver that lists two channels of one name. *)
Definition CH1_twin : sr_channel := {| sr_ptr := 4; sr_name := "CH1" |}.

Definition twin_driver : Driver :=
  {| drv_open_error := None;
     drv_close_error := None;
     drv_channel_groups := [];
     drv_channels := [CH1; CH1_twin];
     drv_config_keys := [];
     drv_samplerate := None |}.

Definition twin_analog : Analog :=
  {| an_channels := [CH1_twin]; num_samples := 1; an_data := [1]%float |}.

(** * Properties *)

(** The guards of [data_feed_in] that a packet of the device itself passes
    in state Running. *)
Ltac passes_guard :=
  rewrite decide_False by (intros Hne; by apply Hne).

Tactic Notation "passes_guard" "in" hyp(H) :=
  rewrite decide_False in H by (intros Hne; by apply Hne).

(** [Forall2 (registered d) cs ps] for a given device, by looking up. *)
Ltac registered_by_lookup :=
  repeat (constructor; [split; [reflexivity|apply Nat.ltb_lt; reflexivity]|]);
  constructor.

Create HintDb registry.

(** ** Assignments *)

Lemma set_channels_same (d : BaseDevice) : set_channels_ (channels_ d) d = d.
Proof. by destruct d. Qed.

Lemma set_channels_twice v w (d : BaseDevice) :
  set_channels_ v (set_channels_ w d) = set_channels_ v d.
Proof. reflexivity. Qed.

Lemma set_sr_channel_map_same (d : BaseDevice) :
  set_sr_channel_map_ (sr_channel_map_ d) d = d.
Proof. by destruct d. Qed.

Lemma map_insert_new_present `{Countable K} {V : Type} (k : K) (v w : V)
    (m : gmap K V) :
  m !! k = Some w → map_insert_new k v m = m.
Proof. intros Hk. unfold map_insert_new. by rewrite Hk. Qed.

Lemma map_insert_new_absent `{Countable K} {V : Type} (k : K) (v : V)
    (m : gmap K V) :
  m !! k = None → map_insert_new k v m = <[k := v]> m.
Proof. intros Hk. unfold map_insert_new. by rewrite Hk. Qed.

Lemma append_samples_nil (ch : Channel) : append_samples [] ch = ch.
Proof. destruct ch. unfold append_samples. simpl. by rewrite app_nil_r. Qed.

Lemma append_samples_app (x y : list sample) (ch : Channel) :
  append_samples y (append_samples x ch) = append_samples (x ++ y) ch.
Proof. unfold append_samples. simpl. by rewrite app_assoc. Qed.

(** ** Analog ingestion *)

(** The loop of [feed_in_analog] on registered channels: it completes,
    changes nothing but the store of Channels, and the Channel at each
    address has got the samples [appended] computes. *)
Lemma feed_in_analog_loop_registered (bld : build) (a : Analog)
    (clock : nat → Z) (rate : Z) (cs : list sr_channel) :
  ∀ (ps : list ptr) (i : nat) (d : BaseDevice),
    Forall2 (registered d) cs ps →
    ∃ d', feed_in_analog_loop bld a clock rate i cs d = Done d' ∧
          d' = set_channels_ (channels_ d') d ∧
          ∀ p, channels_ d' !! p =
               append_samples (appended a (analog_timestamp d clock) rate i ps p)
                 <$> channels_ d !! p.
Proof.
  induction cs as [|c cs IH]; intros ps i d Hreg.
  - apply Forall2_nil_inv_l in Hreg as ->. exists d. simpl.
    split; [done|]. split; [by rewrite set_channels_same|].
    intros p. destruct (channels_ d !! p) as [ch|]; simpl; [|done].
    by rewrite append_samples_nil.
  - apply Forall2_cons_inv_l in Hreg as (p0 & ps' & [Hmap Hlen] & Hrest & ->).
    simpl. rewrite decide_False by (by rewrite Hmap).
    rewrite (map_insert_new_present _ _ _ _ Hmap), set_sr_channel_map_same.
    rewrite Hmap.
    set (d2 := set_channels_ _ d).
    destruct (IH ps' (S i) d2) as (d' & Hrun & Hframe & Hheap).
    { eapply Forall2_impl; [exact Hrest|]. intros c' p' [Hm Hl].
      split; [exact Hm|]. subst d2. simpl. by rewrite length_alter. }
    exists d'. split; [exact Hrun|]. split.
    { rewrite Hframe at 1. subst d2. by rewrite set_channels_twice. }
    intros p. rewrite Hheap. subst d2. simpl.
    change (analog_timestamp (set_channels_ ?v d) clock) with
      (analog_timestamp d clock).
    destruct (decide (p0 = p)) as [->|Hne].
    + rewrite list_lookup_alter_eq.
      destruct (channels_ d !! p) as [ch|]; simpl; [|done].
      f_equal. apply append_samples_app.
    + rewrite list_lookup_alter_ne by done.
      by destruct (channels_ d !! p).
Qed.

Lemma strided_slice_length (a : Analog) ts rate off :
  length (strided_slice a ts rate off) = num_samples a.
Proof. unfold strided_slice. by rewrite length_map, length_seq. Qed.


(** Inside the buffer the slice holds the values at [off], [off + C],
    [off + 2C], ..., one per sample. *)
Lemma strided_slice_values (a : Analog) ts rate off :
  length (an_data a) = num_samples a * length (an_channels a) →
  off < length (an_channels a) →
  Forall2 (λ s k, an_data a !! (off + k * length (an_channels a))
                  = Some (s_value s))
    (strided_slice a ts rate off) (seq 0 (num_samples a)).
Proof.
  intros Hlen Hoff. unfold strided_slice.
  apply Forall2_fmap_l, Forall_Forall2_diag, Forall_forall.
  intros k Hk%elem_of_seq. simpl.
  assert (off + k * length (an_channels a) < length (an_data a)) as Hin by nia.
  destruct (lookup_lt_is_Some_2 _ _ Hin) as [x Hx].
  rewrite Hx. f_equal. symmetry. by apply nth_lookup_Some.
Qed.

Lemma appended_not_elem a stamp rate (ps : list ptr) (p : ptr) :
  ∀ i, p ∉ ps → appended a stamp rate i ps p = [].
Proof.
  induction ps as [|q ps IH]; intros i Hp; [done|].
  apply not_elem_of_cons in Hp as [Hne Hp]. simpl.
  rewrite decide_False by done. by apply IH.
Qed.

Lemma appended_at a stamp rate (ps : list ptr) (p : ptr) :
  ∀ i j, NoDup ps → ps !! j = Some p →
         appended a stamp rate i ps p = strided_slice a (stamp (i + j)) rate (i + j).
Proof.
  induction ps as [|q ps IH]; intros i j Hnd Hj; [done|].
  apply NoDup_cons in Hnd as [Hq Hnd]. destruct j as [|j]; simpl in *.
  - injection Hj as ->. rewrite decide_True by done.
    rewrite appended_not_elem by done.
    by rewrite app_nil_r, Nat.add_0_r.
  - rewrite decide_False.
    + rewrite (IH (S i) j Hnd Hj). simpl. by rewrite Nat.add_succ_r.
    + intros ->. apply Hq. by eapply list_elem_of_lookup_2.
Qed.


Lemma registered_inj (d : BaseDevice) (c : sr_channel) (p p' : ptr) :
  registered d c p → registered d c p' → p = p'.
Proof. intros [Hp _] [Hp' _]. congruence. Qed.

Lemma signal_of_appended (d d' : BaseDevice) (p : ptr) (new : list sample) :
  p < length (channels_ d) →
  channels_ d' !! p = append_samples new <$> channels_ d !! p →
  signal_of d' p = signal_of d p ++ new.
Proof.
  intros [ch Hch]%lookup_lt_is_Some_2 Hp. unfold signal_of.
  by rewrite Hp, Hch.
Qed.

(** The packet dispatch on an analog packet of the device itself, in state
    Running, with registered channels. *)
Lemma data_feed_in_analog_registered (bld : build) (a : Analog)
    (clock : nat → Z) (d : BaseDevice) (ps : list ptr) :
  aquisition_state_ d = Running →
  num_samples a ≠ 0 →
  Forall2 (registered d) (an_channels a) ps →
  ∃ d', data_feed_in bld (sr_device_ d) (SR_DF_ANALOG a) clock d = Done d' ∧
        d' = set_channels_ (channels_ d') d ∧
        ∀ p, channels_ d' !! p =
             append_samples
               (appended a (analog_timestamp d clock) (resolved_samplerate d)
                  0 ps p)
               <$> channels_ d !! p.
Proof.
  intros Hrun Hn Hreg. unfold data_feed_in, feed_in_analog.
  do 2 passes_guard.
  rewrite decide_False by done.
  by apply feed_in_analog_loop_registered.
Qed.

Lemma feed_in_analog_no_samples (bld : build) (a : Analog) (clock : nat → Z)
    (d : BaseDevice) :
  num_samples a = 0 → feed_in_analog bld a clock d = Done d.
Proof. intros Hn. unfold feed_in_analog. by rewrite decide_True. Qed.

Lemma data_feed_in_analog_no_samples (bld : build) (a : Analog)
    (clock : nat → Z) (sr_device : nat) (d : BaseDevice) :
  num_samples a = 0 →
  data_feed_in bld sr_device (SR_DF_ANALOG a) clock d = Done d.
Proof.
  intros Hn. unfold data_feed_in.
  destruct (decide (sr_device ≠ sr_device_ d)); [done|].
  destruct (decide (aquisition_state_ d ≠ Running)); [done|].
  by apply feed_in_analog_no_samples.
Qed.

Lemma data_feed_in_analog_not_running (bld : build) (a : Analog)
    (clock : nat → Z) (sr_device : nat) (d : BaseDevice) :
  aquisition_state_ d ≠ Running →
  data_feed_in bld sr_device (SR_DF_ANALOG a) clock d = Done d.
Proof.
  intros Hstate. unfold data_feed_in.
  destruct (decide (sr_device ≠ sr_device_ d)); [done|].
  by rewrite decide_True.
Qed.

(** ** Claims on analog ingestion *)

(** C10. An analog packet whose payload has no samples leaves the whole
    device state as it is, whatever the acquisition state, the device the
    packet comes from and the channels it names: [feed_in_analog] returns
    at once, and so does the dispatch. *)
Theorem analog_without_samples_changes_nothing (bld : build) (a : Analog)
    (clock : nat → Z) (sr_device : nat) (d : BaseDevice) :
  num_samples a = 0 →
  feed_in_analog bld a clock d = Done d ∧
  data_feed_in bld sr_device (SR_DF_ANALOG a) clock d = Done d.
Proof.
  intros Hn. split.
  - by apply feed_in_analog_no_samples.
  - by apply data_feed_in_analog_no_samples.
Qed.

Lemma analog_without_samples_changes_nothing_witness :
  num_samples empty_analog = 0 ∧
  aquisition_state_ demo_open = Running ∧
  feed_in_analog AssertsOn empty_analog (clock_from 5000) demo_open
    = Done demo_open ∧
  data_feed_in AssertsOn 7 (SR_DF_ANALOG empty_analog) (clock_from 5000)
    demo_open = Done demo_open.
Proof.
  split; [reflexivity|]. split; [reflexivity|].
  apply (analog_without_samples_changes_nothing AssertsOn empty_analog
           (clock_from 5000) 7 demo_open).
  reflexivity.
Defined.

(** C1. An analog packet handed to the dispatch while the acquisition state
    is not Running (Stopped or Paused) leaves the device as it is, so no
    Signal gets a sample. In state Running a packet of the device itself
    whose distinct channels are all registered appends exactly
    [num_samples] entries to the actual Signal of each of these channels. *)
Theorem analog_ingestion_is_state_gated (bld : build) (a : Analog)
    (clock : nat → Z) (sr_device : nat) (d : BaseDevice) :
  (aquisition_state_ d ≠ Running →
   data_feed_in bld sr_device (SR_DF_ANALOG a) clock d = Done d) ∧
  (aquisition_state_ d = Running →
   sr_device = sr_device_ d →
   ∀ ps, Forall2 (registered d) (an_channels a) ps → NoDup ps →
     ∃ d', data_feed_in bld sr_device (SR_DF_ANALOG a) clock d = Done d' ∧
           ∀ c p, c ∈ an_channels a → registered d c p →
             ∃ new, signal_of d' p = signal_of d p ++ new ∧
                    length new = num_samples a).
Proof.
  split.
  - apply data_feed_in_analog_not_running.
  - intros Hrun -> ps Hreg Hnd.
    destruct (decide (num_samples a = 0)) as [Hn|Hn].
    + exists d. split.
      * by apply data_feed_in_analog_no_samples.
      * intros c p _ _. exists []. by rewrite app_nil_r, Hn.
    + destruct (data_feed_in_analog_registered bld a clock d ps Hrun Hn Hreg)
        as (d' & Hfeed & _ & Hheap).
      exists d'. split; [exact Hfeed|]. intros c p Hc Hp.
      apply list_elem_of_lookup in Hc as [j Hc].
      destruct (Forall2_lookup_l _ _ _ _ _ Hreg Hc) as (p' & Hj & Hp').
      rewrite <- (registered_inj _ _ _ _ Hp Hp') in Hj.
      eexists. split.
      * apply signal_of_appended; [apply Hp|apply Hheap].
      * rewrite (appended_at _ _ _ _ _ 0 j Hnd Hj).
        apply strided_slice_length.
Qed.

Lemma demo_open_registered :
  Forall2 (registered demo_open) [CH1; CH2] [0; 1].
Proof.
  registered_by_lookup.
Qed.

Lemma analog_ingestion_is_state_gated_witness :
  data_feed_in AssertsOn 7 (SR_DF_ANALOG demo_analog) (clock_from 5000)
    (pause_aquisition demo_open) = Done (pause_aquisition demo_open) ∧
  ∃ d', data_feed_in AssertsOn 7 (SR_DF_ANALOG demo_analog) (clock_from 5000)
          demo_open = Done d' ∧
        ∀ c p, c ∈ an_channels demo_analog → registered demo_open c p →
          ∃ new, signal_of d' p = signal_of demo_open p ++ new ∧
                 length new = num_samples demo_analog.
Proof.
  split.
  - apply (proj1 (analog_ingestion_is_state_gated AssertsOn demo_analog
                    (clock_from 5000) 7 (pause_aquisition demo_open))).
    vm_compute. discriminate.
  - refine (proj2 (analog_ingestion_is_state_gated AssertsOn demo_analog
                     (clock_from 5000) 7 demo_open) _ _ [0; 1] _ _).
    + reflexivity.
    + reflexivity.
    + exact demo_open_registered.
    + compute_done.
Defined.

(** C2. For an analog packet of the device itself, handled in state
    Running, whose buffer holds [N] samples for each of its [C] distinct,
    registered channels: the channel at position [i] of the packet's
    channel list gets exactly the buffer values at the offsets [i],
    [i + C], ..., [i + (N-1) C], in this order, and the Channels that the
    packet does not name are left as they are. *)
Theorem analog_interleave_correct (bld : build) (a : Analog)
    (clock : nat → Z) (d : BaseDevice) (ps : list ptr) :
  aquisition_state_ d = Running →
  Forall2 (registered d) (an_channels a) ps →
  NoDup ps →
  length (an_data a) = num_samples a * length (an_channels a) →
  ∃ d', data_feed_in bld (sr_device_ d) (SR_DF_ANALOG a) clock d = Done d' ∧
        (∀ i c p, an_channels a !! i = Some c → registered d c p →
           ∃ new, signal_of d' p = signal_of d p ++ new ∧
                  Forall2 (λ s k, an_data a !! (i + k * length (an_channels a))
                                  = Some (s_value s))
                    new (seq 0 (num_samples a))) ∧
        (∀ p, p ∉ ps → channels_ d' !! p = channels_ d !! p).
Proof.
  intros Hrun Hreg Hnd Hlen.
  destruct (decide (num_samples a = 0)) as [Hn|Hn].
  - exists d. split; [by apply data_feed_in_analog_no_samples|].
    split; [|done]. intros i c p _ _. exists [].
    rewrite app_nil_r, Hn. split; [done|constructor].
  - destruct (data_feed_in_analog_registered bld a clock d ps Hrun Hn Hreg)
      as (d' & Hfeed & _ & Hheap).
    exists d'. split; [exact Hfeed|]. split.
    + intros i c p Hc Hp.
      destruct (Forall2_lookup_l _ _ _ _ _ Hreg Hc) as (p' & Hi & Hp').
      rewrite <- (registered_inj _ _ _ _ Hp Hp') in Hi.
      eexists. split; [apply signal_of_appended; [apply Hp|apply Hheap]|].
      rewrite (appended_at _ _ _ _ _ 0 i Hnd Hi). simpl.
      apply strided_slice_values; [exact Hlen|].
      by eapply lookup_lt_Some.
    + intros p Hp. rewrite Hheap, appended_not_elem by done.
      destruct (channels_ d !! p); simpl; [|done].
      by rewrite append_samples_nil.
Qed.

Lemma analog_interleave_correct_witness :
  ∃ d', data_feed_in AssertsOn (sr_device_ demo_open) (SR_DF_ANALOG demo_analog)
          (clock_from 5000) demo_open = Done d' ∧
        (∀ i c p, an_channels demo_analog !! i = Some c →
                  registered demo_open c p →
           ∃ new, signal_of d' p = signal_of demo_open p ++ new ∧
                  Forall2 (λ s k,
                             an_data demo_analog
                               !! (i + k * length (an_channels demo_analog))
                             = Some (s_value s))
                    new (seq 0 (num_samples demo_analog))) ∧
        (∀ p, p ∉ [0; 1] → channels_ d' !! p = channels_ demo_open !! p).
Proof.
  apply (analog_interleave_correct AssertsOn demo_analog (clock_from 5000)
           demo_open [0; 1]).
  - reflexivity.
  - exact demo_open_registered.
  - compute_done.
  - reflexivity.
Defined.

(** On the demo device: CH1 gets the values at offsets 0, 2, 4 and CH2
    those at offsets 1, 3, 5. *)
Example demo_interleave :
  ∃ d', data_feed_in AssertsOn 7 (SR_DF_ANALOG demo_analog) (clock_from 5000)
          demo_open = Done d' ∧
        map s_value (signal_of d' 0) = [1; 3; 5]%float ∧
        map s_value (signal_of d' 1) = [2; 4; 6]%float.
Proof. eexists. split; [reflexivity|]. split; reflexivity. Qed.

(** ** An analog packet that names an unregistered channel *)

(** The check before the lookup asserts a string literal, which holds in
    every build; the lookup then adds a null entry for the channel and the
    push is called through it. *)
Lemma feed_in_analog_unregistered (bld : build) (a : Analog)
    (clock : nat → Z) (d : BaseDevice) (c : sr_channel)
    (rest : list sr_channel) :
  aquisition_state_ d = Running →
  num_samples a ≠ 0 →
  an_channels a = c :: rest →
  sr_channel_map_ d !! sr_ptr c = None →
  data_feed_in bld (sr_device_ d) (SR_DF_ANALOG a) clock d =
    NullChannel
      (set_sr_channel_map_ (<[sr_ptr c := None]> (sr_channel_map_ d)) d).
Proof.
  intros Hrun Hn Hcs Hc. unfold data_feed_in, feed_in_analog.
  do 2 passes_guard.
  rewrite decide_False by done.
  rewrite Hcs. simpl. rewrite decide_True by done.
  assert (cxx_assert bld string_literal_as_condition = true) as ->
    by (by destruct bld).
  rewrite (map_insert_new_absent _ _ _ Hc). simpl.
  by rewrite lookup_insert_eq.
Qed.

(** C8. On the opened demo device, an analog packet that names CH3, which
    is not registered, is not dropped and stops no build at an assertion:
    with and without [NDEBUG] the handling ends in a call through the null
    entry that the lookup has just added to [sr_channel_map_]. *)
Theorem unregistered_channel_is_dereferenced (bld : build) :
  sr_channel_map_ demo_open !! sr_ptr CH3 = None ∧
  data_feed_in bld 7 (SR_DF_ANALOG stray_analog) (clock_from 5000) demo_open =
    NullChannel
      (set_sr_channel_map_ (<[3 := None]> (sr_channel_map_ demo_open))
         demo_open).
Proof.
  split; [reflexivity|].
  by apply (feed_in_analog_unregistered bld stray_analog (clock_from 5000)
              demo_open CH3 []).
Qed.

(** ** Timestamps of the appended samples *)












(** ** Close *)

Lemma close_returns (drv : Driver) (d : BaseDevice) :
  ∃ d', close drv d = Returned d' ∧ device_open_ d' = false.
Proof.
  unfold close. destruct (device_open_ d) eqn:Hopen; simpl.
  - unfold sr_device_close. destruct (drv_close_error drv); simpl; eauto.
  - eauto.
Qed.

Lemma close_not_open (drv : Driver) (d : BaseDevice) :
  device_open_ d = false → close drv d = Returned d.
Proof. intros Hopen. unfold close. by rewrite Hopen. Qed.

(** C7. [close] on a device that is not open, be it closed before or never
    opened, returns the device as it is: session, registries, acquisition
    state and open flag. On any device [close] returns, whether or not the
    driver's device close fails, and leaves a device that is not open, on
    which a further [close] changes nothing. *)
Theorem close_is_idempotent_and_never_throws (drv : Driver) (d : BaseDevice) :
  (device_open_ d = false → close drv d = Returned d) ∧
  (∃ d', close drv d = Returned d' ∧ device_open_ d' = false ∧
         ∀ drv', close drv' d' = Returned d').
Proof.
  split; [apply close_not_open|].
  destruct (close_returns drv d) as (d' & Hclose & Hopen).
  exists d'. split; [exact Hclose|]. split; [exact Hopen|].
  intros drv'. by apply close_not_open.
Qed.

(** The demo device, whose driver fails to close the device: never opened,
    and opened. *)
Lemma close_is_idempotent_and_never_throws_witness :
  drv_close_error demo_driver = Some "device instance not active" ∧
  device_open_ demo_open = true ∧
  close demo_driver demo_new = Returned demo_new ∧
  (∃ d', close demo_driver demo_open = Returned d' ∧ device_open_ d' = false ∧
         ∀ drv', close drv' d' = Returned d').
Proof.
  split; [reflexivity|]. split; [reflexivity|]. split.
  - apply (proj1 (close_is_idempotent_and_never_throws demo_driver demo_new)).
    reflexivity.
  - apply (proj2 (close_is_idempotent_and_never_throws demo_driver demo_open)).
Defined.

(** ** End and FrameEnd *)

Lemma data_feed_in_end (bld : build) (sr_device : nat) (clock : nat → Z)
    (d : BaseDevice) :
  data_feed_in bld sr_device SR_DF_END clock d = Done d.
Proof.
  unfold data_feed_in. by destruct (decide (sr_device ≠ sr_device_ d)).
Qed.

Lemma data_feed_in_frame_end (bld : build) (clock : nat → Z)
    (d : BaseDevice) :
  data_feed_in bld (sr_device_ d) SR_DF_FRAME_END clock d
    = Done (set_frame_began_ false d).
Proof.
  unfold data_feed_in. by passes_guard.
Qed.

(** X1. Where no frame is open, End and FrameEnd packets of the device
    have the same effect on the device: none. *)
Lemma end_is_frame_end_outside_frame (bld : build) (clock : nat → Z)
    (d : BaseDevice) :
  frame_began_ d = false →
  data_feed_in bld (sr_device_ d) SR_DF_END clock d
    = data_feed_in bld (sr_device_ d) SR_DF_FRAME_END clock d ∧
  data_feed_in bld (sr_device_ d) SR_DF_END clock d = Done d.
Proof.
  intros Hout. rewrite data_feed_in_end, data_feed_in_frame_end.
  split; [|done]. f_equal. destruct d. simpl in *. by subst.
Qed.

Lemma end_is_frame_end_outside_frame_witness :
  frame_began_ demo_open = false ∧
  data_feed_in AssertsOn (sr_device_ demo_open) SR_DF_END (clock_from 0)
    demo_open
  = data_feed_in AssertsOn (sr_device_ demo_open) SR_DF_FRAME_END
      (clock_from 0) demo_open ∧
  data_feed_in AssertsOn (sr_device_ demo_open) SR_DF_END (clock_from 0)
    demo_open = Done demo_open.
Proof.
  split; [reflexivity|].
  apply (end_is_frame_end_outside_frame AssertsOn (clock_from 0) demo_open).
  reflexivity.
Defined.

(** X2. Header, Trigger, Logic and End packets and packets of any other
    tag leave the device as it is, in every acquisition state, and so does
    every packet that comes from another device. *)
Theorem passive_packets_change_nothing (bld : build) (sr_device : nat)
    (clock : nat → Z) (d : BaseDevice) :
  data_feed_in bld sr_device SR_DF_HEADER clock d = Done d ∧
  data_feed_in bld sr_device SR_DF_TRIGGER clock d = Done d ∧
  data_feed_in bld sr_device SR_DF_LOGIC clock d = Done d ∧
  data_feed_in bld sr_device SR_DF_END clock d = Done d ∧
  (∀ id, data_feed_in bld sr_device (SR_DF_OTHER id) clock d = Done d) ∧
  (∀ sr_packet, sr_device ≠ sr_device_ d →
                data_feed_in bld sr_device sr_packet clock d = Done d).
Proof.
  unfold data_feed_in.
  destruct (decide (sr_device ≠ sr_device_ d)) as [Hne|Heq].
  - by repeat split.
  - repeat split; try done.
    by destruct (decide (aquisition_state_ d ≠ Running)).
Qed.

(** C9. On the demo device inside a frame the End packet leaves the device
    as it is, with the frame still open, where the FrameEnd packet closes
    the frame: the two are not the same state transformer. *)
Theorem end_packet_leaves_frame_open (bld : build) :
  frame_began_ demo_in_frame = true ∧
  data_feed_in bld (sr_device_ demo_in_frame) SR_DF_END (clock_from 3000)
    demo_in_frame = Done demo_in_frame ∧
  data_feed_in bld (sr_device_ demo_in_frame) SR_DF_FRAME_END
    (clock_from 3000) demo_in_frame
    = Done (set_frame_began_ false demo_in_frame) ∧
  frame_began_ (set_frame_began_ false demo_in_frame) = false.
Proof.
  split; [reflexivity|]. split; [apply data_feed_in_end|].
  split; [apply data_feed_in_frame_end|reflexivity].
Qed.

(** ** Meta packets *)

Section feed_in_meta.

Context (sr_meta : Meta).

(** With more than one Configurable the loop passes over the entries keyed
    by the empty name and feeds the first other one. *)
Lemma feed_in_meta_loop_first_group (size : nat)
    (m : list (string * Configurable)) :
  1 < size →
  ∀ i k c,
    m !! i = Some (k, c) → k ≠ "" →
    (∀ j k' c', j < i → m !! j = Some (k', c') → k' = "") →
    feed_in_meta_loop size sr_meta m
      = <[i := (k, Configurable_feed_in_meta sr_meta c)]> m.
Proof.
  intros Hsize. induction m as [|[k0 c0] m IH]; intros i k c Hi Hk Hbefore;
    [done|].
  destruct i as [|i]; simpl in *.
  - injection Hi as -> ->.
    by rewrite decide_False by (intros [? _]; done).
  - assert (k0 = "") as -> by (apply (Hbefore 0 _ c0); [lia|done]).
    rewrite decide_True by done. f_equal.
    apply IH; [done..|].
    intros j k' c' Hj Hlook. apply (Hbefore (S j) k' c'); [lia|done].
Qed.

Lemma first_group_configurable (m : list (string * Configurable)) :
  (∃ j k' c', m !! j = Some (k', c') ∧ k' ≠ "") →
  ∃ i k c, m !! i = Some (k, c) ∧ k ≠ "" ∧
           ∀ j k' c', j < i → m !! j = Some (k', c') → k' = "".
Proof.
  induction m as [|[k0 c0] m IH]; intros (j & k' & c' & Hj & Hk'); [done|].
  destruct (decide (k0 = "")) as [->|Hk0].
  - destruct j as [|j]; simpl in Hj; [by injection Hj as <- _|].
    destruct IH as (i & k & c & Hi & Hk & Hbefore); [by eauto|].
    exists (S i), k, c. split; [done|]. split; [done|].
    intros [|j0] k1 c1 Hlt Hlook; simpl in Hlook.
    + by injection Hlook as <- _.
    + apply (Hbefore j0 k1 c1); [lia|done].
  - exists 0, k0, c0. split; [done|]. split; [done|]. intros; lia.
Qed.

(** The keys of a [std::map] are distinct, so of two or more Configurables
    one belongs to a channel group. *)
Lemma two_keys_one_group (m : list (string * Configurable)) :
  NoDup m.*1 → 1 < length m →
  ∃ j k' c', m !! j = Some (k', c') ∧ k' ≠ "".
Proof.
  intros Hnd Hlen. destruct m as [|[k0 c0] [|[k1 c1] m]]; simpl in Hlen;
    [lia..|].
  destruct (decide (k0 = "")) as [->|Hk0].
  - exists 1, k1, c1. split; [done|]. intros ->.
    apply NoDup_cons in Hnd as [Hin _]. apply Hin. simpl. left.
  - by exists 0, k0, c0.
Qed.

(** The handler on a registry that is not empty: the one Configurable that
    is fed. *)
Lemma feed_in_meta_recipient (d : BaseDevice) :
  NoDup (configurable_map_ d).*1 →
  configurable_map_ d ≠ [] →
  ∃ i k c,
    configurable_map_ d !! i = Some (k, c) ∧
    feed_in_meta sr_meta d =
      set_configurable_map_
        (<[i := (k, Configurable_feed_in_meta sr_meta c)]>
           (configurable_map_ d)) d ∧
    (∀ j k' c', j < i → configurable_map_ d !! j = Some (k', c') → k' = "") ∧
    (k = "" → length (configurable_map_ d) = 1).
Proof.
  intros Hnd Hne. unfold feed_in_meta.
  destruct (decide (1 < length (configurable_map_ d))) as [Hlen|Hlen].
  - destruct (first_group_configurable _ (two_keys_one_group _ Hnd Hlen))
      as (i & k & c & Hi & Hk & Hbefore).
    exists i, k, c. split; [done|]. split; [|by split].
    f_equal. by apply feed_in_meta_loop_first_group.
  - destruct (configurable_map_ d) as [|[k c] m] eqn:Hm; [done|].
    exists 0, k, c. split; [done|]. split.
    + simpl. by rewrite decide_False by (intros [_ ?]; done).
    + split; [intros; lia|]. intros _. simpl in *. lia.
Qed.

Lemma Configurable_feed_in_meta_changes (c : Configurable) :
  Configurable_feed_in_meta sr_meta c ≠ c.
Proof.
  intros Heq. apply (f_equal (λ c, length (cf_meta c))) in Heq.
  simpl in Heq. rewrite length_app in Heq. simpl in Heq. lia.
Qed.

Lemma forwarded_to_insert (m : list (string * Configurable))
    (i : nat) (k : string) (c : Configurable) :
  m !! i = Some (k, c) →
  ∀ j, forwarded_to sr_meta m
         (<[i := (k, Configurable_feed_in_meta sr_meta c)]> m) j ↔ j = i.
Proof.
  intros Hi j. split.
  - intros (k' & c' & Hbefore & Hafter).
    destruct (decide (j = i)) as [|Hne]; [done|].
    rewrite list_lookup_insert_ne, Hbefore in Hafter by done.
    injection Hafter as Hc. symmetry in Hc.
    by apply Configurable_feed_in_meta_changes in Hc.
  - intros ->. exists k, c. split; [done|].
    apply list_lookup_insert_eq. by eapply lookup_lt_Some.
Qed.

End feed_in_meta.

(** C4, as the code has it. A Meta packet of the device is forwarded to at
    most one Configurable. With no Configurable in the registry it is
    forwarded to none and the device stays as it is. Otherwise it is
    forwarded to exactly one: the first channel-group Configurable in the
    order of the registry if there is one, and the device-level
    Configurable, keyed by the empty name, only when that is the sole
    Configurable. *)
Theorem meta_is_forwarded_to_at_most_one (bld : build) (sr_meta : Meta)
    (clock : nat → Z) (d : BaseDevice) :
  NoDup (configurable_map_ d).*1 →
  ∃ d', data_feed_in bld (sr_device_ d) (SR_DF_META sr_meta) clock d
          = Done d' ∧
        (configurable_map_ d = [] → d' = d) ∧
        (configurable_map_ d ≠ [] →
         ∃ i k c,
           configurable_map_ d !! i = Some (k, c) ∧
           d' = set_configurable_map_
                  (<[i := (k, Configurable_feed_in_meta sr_meta c)]>
                     (configurable_map_ d)) d ∧
           (∀ j, forwarded_to sr_meta (configurable_map_ d)
                   (configurable_map_ d') j ↔ j = i) ∧
           ((∃ j k' c', configurable_map_ d !! j = Some (k', c') ∧ k' ≠ "") →
            k ≠ "" ∧
            ∀ j k' c', j < i → configurable_map_ d !! j = Some (k', c') →
                       k' = "") ∧
           (k = "" → length (configurable_map_ d) = 1)).
Proof.
  intros Hnd. exists (feed_in_meta sr_meta d). split.
  { unfold data_feed_in. by passes_guard. }
  split.
  { intros Hm. unfold feed_in_meta. rewrite Hm. simpl. rewrite <- Hm.
    by destruct d. }
  intros Hne.
  destruct (feed_in_meta_recipient sr_meta d Hnd Hne)
    as (i & k & c & Hi & Hfed & Hbefore & Hsole).
  exists i, k, c. split; [exact Hi|]. split; [exact Hfed|]. split.
  { rewrite Hfed. simpl. by apply forwarded_to_insert. }
  split; [|exact Hsole].
  intros (j & k' & c' & Hj & Hk'). split; [|exact Hbefore].
  intros ->. specialize (Hsole eq_refl).
  assert (i = 0 ∧ j = 0) as [-> ->].
  { apply lookup_lt_Some in Hi, Hj. lia. }
  rewrite Hi in Hj. by injection Hj as <- _.
Qed.

Lemma meta_is_forwarded_to_at_most_one_witness :
  ∃ d', data_feed_in AssertsOn (sr_device_ demo_configured)
          (SR_DF_META demo_meta) (clock_from 0) demo_configured = Done d' ∧
        (configurable_map_ demo_configured = [] → d' = demo_configured) ∧
        (configurable_map_ demo_configured ≠ [] →
         ∃ i k c,
           configurable_map_ demo_configured !! i = Some (k, c) ∧
           d' = set_configurable_map_
                  (<[i := (k, Configurable_feed_in_meta demo_meta c)]>
                     (configurable_map_ demo_configured)) demo_configured ∧
           (∀ j, forwarded_to demo_meta (configurable_map_ demo_configured)
                   (configurable_map_ d') j ↔ j = i) ∧
           ((∃ j k' c', configurable_map_ demo_configured !! j
                        = Some (k', c') ∧ k' ≠ "") →
            k ≠ "" ∧
            ∀ j k' c', j < i →
                       configurable_map_ demo_configured !! j = Some (k', c') →
                       k' = "") ∧
           (k = "" → length (configurable_map_ demo_configured) = 1)).
Proof.
  apply (meta_is_forwarded_to_at_most_one AssertsOn demo_meta (clock_from 0)
           demo_configured).
  compute_done.
Defined.

(** On the demo device, which has a device-level Configurable and the one
    of channel group B, the Meta packet goes to the latter. *)
Example demo_meta_goes_to_group :
  map (λ e, (e.1, cf_meta e.2))
    (configurable_map_ (feed_in_meta demo_meta demo_configured))
  = [("", []); ("B", [demo_meta])].
Proof. reflexivity. Qed.

(** C4, as the claim has it, fails on a device without Configurables: the
    Meta packet is handled and no Configurable is fed. *)
Lemma meta_without_configurables_reaches_none :
  configurable_map_ bare_configured = [] ∧
  ∃ d', data_feed_in AssertsOn (sr_device_ bare_configured)
          (SR_DF_META demo_meta) (clock_from 0) bare_configured = Done d' ∧
        ¬ ∃ i, forwarded_to demo_meta (configurable_map_ bare_configured)
                 (configurable_map_ d') i.
Proof.
  split; [reflexivity|]. exists bare_configured.
  split; [vm_compute; reflexivity|].
  intros (i & k & c & Hbefore & _).
  change (configurable_map_ bare_configured) with (@nil (string * Configurable))
    in Hbefore.
  by rewrite lookup_nil in Hbefore.
Qed.

(** ** The channel registry *)

(** What one call of [add_channel] for a live Channel does to the members
    of the device. *)
Lemma add_channel_fields (p : ptr) (g : string) (d : BaseDevice)
    (ch : Channel) :
  channels_ d !! p = Some ch →
  channel_name_map_ (add_channel p g d)
    = (if decide (channel_name_map_ d !! name ch = None)
       then <[name ch := p]> (channel_name_map_ d)
       else channel_name_map_ d) ∧
  (∀ g', group_list (add_channel p g d) g'
         = if decide (g' = g) then group_list d g ++ [p]
           else group_list d g') ∧
  channels_ (add_channel p g d)
    = (if decide (g ∈ channel_group_names ch) then channels_ d
       else <[p := add_channel_group_name g ch]> (channels_ d)) ∧
  sr_channel_map_ (add_channel p g d) = sr_channel_map_ d ∧
  emitted_ (add_channel p g d) = emitted_ d ++ [channel_added p].
Proof.
  intros Hch. unfold add_channel. rewrite Hch.
  split.
  { destruct (decide (channel_name_map_ d !! name ch = None)) as [Hn|Hn];
      repeat case_decide; simpl; try done;
      by rewrite (map_insert_new_absent _ _ _ Hn). }
  split.
  { intros g'. unfold group_list.
    destruct (decide (channel_name_map_ d !! name ch = None)); simpl;
      (destruct (decide (channel_group_name_map_ d !! g = None)) as [Hg|Hg];
       [rewrite (map_insert_new_absent _ _ _ Hg)|]);
      destruct (decide (g ∈ channel_group_names ch)); simpl;
      destruct (decide (g' = g)) as [->|Hne];
      rewrite ?lookup_insert_eq, ?lookup_insert_ne by done;
      rewrite ?lookup_insert_eq, ?lookup_insert_ne by done;
      try done; by rewrite Hg. }
  split.
  { repeat case_decide; done. }
  split; repeat case_decide; done.
Qed.

Section add_sr_channel.

Context (c : sr_channel) (g : string).

(** [add_sr_channel] for a name the registry has: the Channel is found. *)
Lemma add_sr_channel_found (d : BaseDevice) (p : ptr) (ch : Channel) :
  channel_name_map_ d !! sr_name c = Some p →
  channels_ d !! p = Some ch →
  name ch = sr_name c →
  (add_sr_channel c g d).2 = p ∧
  channel_name_map_ (add_sr_channel c g d).1 = channel_name_map_ d ∧
  (∀ g', group_list (add_sr_channel c g d).1 g'
         = if decide (g' = g) then group_list d g ++ [p]
           else group_list d g') ∧
  channels_ (add_sr_channel c g d).1
    = (if decide (g ∈ channel_group_names ch) then channels_ d
       else <[p := add_channel_group_name g ch]> (channels_ d)) ∧
  sr_channel_map_ (add_sr_channel c g d).1 = sr_channel_map_ d ∧
  emitted_ (add_sr_channel c g d).1 = emitted_ d ++ [channel_added p].
Proof.
  intros Hname Hch Hn. unfold add_sr_channel. rewrite Hname. simpl.
  destruct (add_channel_fields p g d ch Hch) as (Hnm & Hgl & Hheap & Hsr & Hem).
  rewrite Hn, Hname in Hnm. rewrite decide_False in Hnm by done.
  done.
Qed.

(** [add_sr_channel] for a new name: a Channel is made at the next free
    address. *)
Lemma add_sr_channel_created (d : BaseDevice) :
  channel_name_map_ d !! sr_name c = None →
  (add_sr_channel c g d).2 = length (channels_ d) ∧
  channel_name_map_ (add_sr_channel c g d).1
    = <[sr_name c := length (channels_ d)]> (channel_name_map_ d) ∧
  (∀ g', group_list (add_sr_channel c g d).1 g'
         = if decide (g' = g) then group_list d g ++ [length (channels_ d)]
           else group_list d g') ∧
  channels_ (add_sr_channel c g d).1
    = channels_ d ++
      [HardwareChannel_new c {[g]} (aquisition_start_timestamp_ d)] ∧
  sr_channel_map_ (add_sr_channel c g d).1
    = map_insert_new (sr_ptr c) (Some (length (channels_ d)))
        (sr_channel_map_ d) ∧
  emitted_ (add_sr_channel c g d).1
    = emitted_ d ++ [channel_added (length (channels_ d))].
Proof.
  intros Hname. unfold add_sr_channel. rewrite Hname. simpl.
  set (new := HardwareChannel_new c {[g]} (aquisition_start_timestamp_ d)).
  set (d2 := set_sr_channel_map_ _ (set_channels_ _ d)).
  assert (channels_ d2 !! length (channels_ d) = Some new) as Hch.
  { subst d2. simpl. by apply list_lookup_middle. }
  destruct (add_channel_fields (length (channels_ d)) g d2 new Hch)
    as (Hnm & Hgl & Hheap & Hsr & Hem).
  split; [done|]. split.
  { rewrite Hnm. subst d2 new. simpl. by rewrite decide_True. }
  split; [exact Hgl|]. split.
  { rewrite Hheap. subst d2 new. simpl.
    rewrite decide_True by set_solver. done. }
  done.
Qed.

(** One call of [add_sr_channel] keeps the registry consistent, keeps what
    it held, registers the channel under its name and the group, and
    emits one notification, for the Channel it returns. *)
Lemma add_sr_channel_spec (d : BaseDevice) :
  registry_inv d →
  registry_inv (add_sr_channel c g d).1 ∧
  registry_le d (add_sr_channel c g d).1 ∧
  member_of (add_sr_channel c g d).1 (sr_name c) g (add_sr_channel c g d).2 ∧
  emitted_ (add_sr_channel c g d).1
    = emitted_ d ++ [channel_added (add_sr_channel c g d).2].
Proof.
  intros [I1 I2].
  destruct (channel_name_map_ d !! sr_name c) as [p|] eqn:Hname.
  - destruct (I1 _ _ Hname) as (ch & Hch & Hn).
    destruct (add_sr_channel_found d p ch Hname Hch Hn)
      as (-> & Hnm & Hgl & Hheap & _ & Hem).
    pose proof (lookup_lt_Some _ _ _ Hch) as Hlt.
    assert (∀ q chq, channels_ d !! q = Some chq →
              ∃ chq', channels_ (add_sr_channel c g d).1 !! q = Some chq' ∧
                      name chq' = name chq ∧
                      channel_group_names chq ⊆ channel_group_names chq')
      as Hkeep.
    { intros q chq Hq. rewrite Hheap.
      destruct (decide (g ∈ channel_group_names ch)); [by exists chq|].
      destruct (decide (q = p)) as [->|Hne].
      - rewrite list_lookup_insert_eq by done.
        eexists. split; [done|]. rewrite Hch in Hq. injection Hq as <-.
        split; [done|]. simpl. set_solver.
      - rewrite list_lookup_insert_ne by done. by exists chq. }
    split; [split|split; [split; [|split]|split]].
    + intros n' q Hq. rewrite Hnm in Hq.
      destruct (I1 _ _ Hq) as (chq & Hchq & Hnq).
      destruct (Hkeep _ _ Hchq) as (chq' & Hchq' & Hnq' & _).
      exists chq'. split; [done|]. by rewrite Hnq'.
    + intros q chq Hq. rewrite Hnm. rewrite Hheap in Hq.
      destruct (decide (g ∈ channel_group_names ch)); [by apply I2|].
      apply list_lookup_insert_Some in Hq as [(<- & <- & _)|(Hne & Hq)];
        [|by apply I2].
      by apply (I2 _ _ Hch).
    + intros n' q. by rewrite Hnm.
    + intros g' q Hq. rewrite Hgl.
      destruct (decide (g' = g)) as [->|]; [|done].
      apply elem_of_app. by left.
    + exact Hkeep.
    + split; [by rewrite Hnm|]. split.
      * rewrite Hgl, decide_True by done. apply elem_of_app. right. left.
      * rewrite Hheap.
        destruct (decide (g ∈ channel_group_names ch)); [by exists ch|].
        rewrite list_lookup_insert_eq by done.
        eexists. split; [done|]. split; [done|]. simpl. set_solver.
    + exact Hem.
  - destruct (add_sr_channel_created d Hname)
      as (-> & Hnm & Hgl & Hheap & _ & Hem).
    split; [split|split; [split; [|split]|split]].
    + intros n' q Hq. rewrite Hnm in Hq. rewrite Hheap.
      apply lookup_insert_Some in Hq as [(<- & <-)|(Hne & Hq)].
      * eexists. split; [by apply list_lookup_middle|done].
      * destruct (I1 _ _ Hq) as (chq & Hchq & Hnq).
        exists chq. split; [by apply lookup_app_l_Some|done].
    + intros q chq Hq. rewrite Hnm. rewrite Hheap in Hq.
      apply lookup_snoc_Some in Hq as [(_ & Hq)|(-> & <-)].
      * pose proof (I2 _ _ Hq) as Hq'. rewrite lookup_insert_ne; [done|].
        intros Heq. by rewrite <- Heq, Hname in Hq'.
      * by rewrite lookup_insert_eq.
    + intros n' q Hq. rewrite Hnm, lookup_insert_ne; [done|].
      intros <-. by rewrite Hname in Hq.
    + intros g' q Hq. rewrite Hgl.
      destruct (decide (g' = g)) as [->|]; [|done].
      apply elem_of_app. by left.
    + intros q chq Hq. exists chq. rewrite Hheap.
      split; [by apply lookup_app_l_Some|done].
    + split; [by rewrite Hnm, lookup_insert_eq|]. split.
      * rewrite Hgl, decide_True by done. apply elem_of_app. right. left.
      * rewrite Hheap. eexists. split; [by apply list_lookup_middle|].
        split; [done|]. simpl. set_solver.
    + exact Hem.
Qed.

End add_sr_channel.

Lemma registry_le_refl (d : BaseDevice) : registry_le d d.
Proof.
  split; [done|]. split; [done|]. intros p ch Hch. by exists ch.
Qed.

Lemma registry_le_trans (d1 d2 d3 : BaseDevice) :
  registry_le d1 d2 → registry_le d2 d3 → registry_le d1 d3.
Proof.
  intros (Hn12 & Hg12 & Hc12) (Hn23 & Hg23 & Hc23).
  split; [by auto|]. split; [by auto|].
  intros p ch Hch.
  destruct (Hc12 _ _ Hch) as (ch2 & Hch2 & Hname2 & Hsub2).
  destruct (Hc23 _ _ Hch2) as (ch3 & Hch3 & Hname3 & Hsub3).
  exists ch3. split; [done|]. split; [congruence|set_solver].
Qed.

Lemma member_of_le (d d' : BaseDevice) (n g : string) (p : ptr) :
  registry_le d d' → member_of d n g p → member_of d' n g p.
Proof.
  intros (Hn & Hg & Hc) (Hname & Hlist & ch & Hch & Hnm & Hgrp).
  split; [by auto|]. split; [by auto|].
  destruct (Hc _ _ Hch) as (ch' & Hch' & Hname' & Hsub).
  exists ch'. split; [done|]. split; [congruence|set_solver].
Qed.

#[local] Hint Resolve registry_le_refl registry_le_trans member_of_le
  : registry.

Lemma add_all_snoc (calls : list (sr_channel * string))
    (call : sr_channel * string) (d : BaseDevice) :
  add_all (calls ++ [call]) d
    = (add_sr_channel call.1 call.2 (add_all calls d)).1.
Proof. unfold add_all. by rewrite foldl_app. Qed.

Lemma add_all_app (calls1 calls2 : list (sr_channel * string))
    (d : BaseDevice) :
  add_all (calls1 ++ calls2) d = add_all calls2 (add_all calls1 d).
Proof. unfold add_all. by rewrite foldl_app. Qed.

(** The two loops of [init_channels] are sequences of such calls. *)
Lemma init_group_channels_calls (groups : list sr_channel_group) :
  ∀ d, init_group_channels groups d = add_all (group_listing groups) d.
Proof.
  unfold init_group_channels, group_listing.
  induction groups as [|cg groups IH]; intros d; [done|].
  rewrite bind_cons, add_all_app. simpl. rewrite IH. f_equal.
  generalize d. induction (cg_channels cg) as [|c cs IHc]; intros d0; [done|].
  simpl. by rewrite IHc.
Qed.

Lemma init_other_channels_calls (chans : list sr_channel) :
  ∀ d, init_other_channels chans d = add_all (other_listing chans d) d.
Proof.
  unfold init_other_channels.
  induction chans as [|c chans IH]; intros d; [done|].
  simpl. destruct (decide (is_Some (sr_channel_map_ d !! sr_ptr c))).
  - apply IH.
  - simpl. apply IH.
Qed.

Lemma init_channels_calls (groups : list sr_channel_group)
    (chans : list sr_channel) (d : BaseDevice) :
  init_channels groups chans d
    = add_all (group_listing groups ++
               other_listing chans (init_group_channels groups d)) d.
Proof.
  unfold init_channels.
  by rewrite init_other_channels_calls, add_all_app,
    <- init_group_channels_calls.
Qed.

(** A sequence of calls keeps the registry consistent, keeps what it held,
    and emits one notification per call, for the Channel that the call
    has registered under the name and the group of the call. *)
Lemma add_all_spec (calls : list (sr_channel * string)) :
  ∀ d, registry_inv d →
       registry_inv (add_all calls d) ∧
       registry_le d (add_all calls d) ∧
       ∃ ps, emitted_ (add_all calls d) = emitted_ d ++ (channel_added <$> ps) ∧
             Forall2 (λ p call, member_of (add_all calls d)
                                  (sr_name call.1) call.2 p) ps calls.
Proof.
  induction calls as [|call calls IH]; intros d Hinv.
  - split; [done|]. split; [auto with registry|].
    exists []. simpl. by rewrite app_nil_r.
  - destruct (add_sr_channel_spec call.1 call.2 d Hinv)
      as (Hinv1 & Hle1 & Hmem1 & Hem1).
    destruct (IH _ Hinv1) as (Hinv' & Hle' & ps & Hem' & Hmem').
    change (add_all (call :: calls) d)
      with (add_all calls (add_sr_channel call.1 call.2 d).1).
    split; [done|]. split; [eauto with registry|].
    exists ((add_sr_channel call.1 call.2 d).2 :: ps). split.
    + rewrite Hem', Hem1. by rewrite <- app_assoc.
    + constructor; [|done]. eauto with registry.
Qed.

Lemma close_same_registry (drv : Driver) (d d' : BaseDevice) :
  close drv d = Returned d' → same_registry d d'.
Proof.
  unfold close, sr_device_close.
  destruct (device_open_ d); simpl; [|intros [= <-]; by repeat split].
  destruct (aquisition_thread_ d), (drv_close_error drv); simpl;
    intros [= <-]; by repeat split.
Qed.

(** [open] returns when the driver opens the device; the registry it
    leaves is the one [init_channels] builds on the registry it finds. *)
Lemma open_returns (drv : Driver) (d : BaseDevice) :
  drv_open_error drv = None →
  ∃ d1 d', open drv d = Returned d' ∧
           same_registry d d1 ∧
           same_registry
             (init_channels (drv_channel_groups drv) (drv_channels drv) d1) d'.
Proof.
  intros Hdrv. unfold open, sr_device_open. rewrite Hdrv.
  destruct (close_returns drv d) as (d0 & Hclose & _).
  assert (∃ d0, (if device_open_ d then close drv d else Returned d)
                = Returned d0 ∧ same_registry d d0) as (d0' & -> & Hsame).
  { destruct (device_open_ d).
    - exists d0. split; [done|]. by eapply close_same_registry.
    - by exists d. }
  simpl. eexists _, _. split; [done|]. split; [|done]. exact Hsame.
Qed.

Lemma registry_inv_same (d d' : BaseDevice) :
  same_registry d d' → registry_inv d → registry_inv d'.
Proof.
  intros (Hnm & _ & _ & Hch & _) [I1 I2]. unfold registry_inv.
  rewrite Hnm, Hch. by split.
Qed.

Lemma member_of_same (d d' : BaseDevice) (n g : string) (p : ptr) :
  same_registry d d' → member_of d n g p → member_of d' n g p.
Proof.
  intros (Hnm & Hgm & _ & Hch & _). unfold member_of, group_list.
  by rewrite Hnm, Hgm, Hch.
Qed.

Lemma group_listing_elem (groups : list sr_channel_group)
    (cg : sr_channel_group) (c : sr_channel) :
  cg ∈ groups → c ∈ cg_channels cg → (c, cg_name cg) ∈ group_listing groups.
Proof.
  intros Hcg Hc. unfold group_listing. apply list_elem_of_bind.
  exists cg. split; [|done]. apply list_elem_of_fmap. by exists c.
Qed.

Lemma registry_inv_one_per_name (d : BaseDevice) (q1 q2 : ptr)
    (ch1 ch2 : Channel) :
  registry_inv d →
  channels_ d !! q1 = Some ch1 → channels_ d !! q2 = Some ch2 →
  name ch1 = name ch2 → q1 = q2.
Proof.
  intros [_ I2] H1%I2 H2%I2 Hname. rewrite Hname in H1. congruence.
Qed.

(** C5. When the driver lists channels of one name in two channel groups,
    the registry that [open] builds holds one Channel of that name: it is
    the one the name map gives, it is in the lists of both groups in the
    group map and holds both group memberships. No two Channels of the
    store have one name. *)
Theorem one_channel_per_name_on_open (drv : Driver) (d : BaseDevice)
    (cg1 cg2 : sr_channel_group) (c1 c2 : sr_channel) :
  registry_inv d →
  drv_open_error drv = None →
  cg1 ∈ drv_channel_groups drv → cg2 ∈ drv_channel_groups drv →
  c1 ∈ cg_channels cg1 → c2 ∈ cg_channels cg2 →
  sr_name c1 = sr_name c2 →
  ∃ d', open drv d = Returned d' ∧
        (∃ p ch, channel_name_map_ d' !! sr_name c1 = Some p ∧
                 channels_ d' !! p = Some ch ∧
                 name ch = sr_name c1 ∧
                 p ∈ group_list d' (cg_name cg1) ∧
                 p ∈ group_list d' (cg_name cg2) ∧
                 cg_name cg1 ∈ channel_group_names ch ∧
                 cg_name cg2 ∈ channel_group_names ch) ∧
        (∀ q1 q2 ch1 ch2,
           channels_ d' !! q1 = Some ch1 → channels_ d' !! q2 = Some ch2 →
           name ch1 = name ch2 → q1 = q2).
Proof.
  intros Hinv Hdrv Hcg1 Hcg2 Hc1 Hc2 Hname.
  destruct (open_returns drv d Hdrv) as (d1 & d' & Hopen & Hsame1 & Hsame').
  exists d'. split; [exact Hopen|].
  pose proof (registry_inv_same _ _ Hsame1 Hinv) as Hinv1.
  rewrite init_channels_calls in Hsame'.
  set (calls := group_listing (drv_channel_groups drv) ++ _) in Hsame'.
  destruct (add_all_spec calls d1 Hinv1) as (HinvI & _ & ps & _ & Hmem).
  assert (∀ cg c, cg ∈ drv_channel_groups drv → c ∈ cg_channels cg →
            ∃ p, member_of d' (sr_name c) (cg_name cg) p) as Hlisted.
  { intros cg c Hcg Hc.
    assert ((c, cg_name cg) ∈ calls) as [i Hi]%list_elem_of_lookup.
    { apply elem_of_app. left. by apply group_listing_elem. }
    destruct (Forall2_lookup_r _ _ _ _ _ Hmem Hi) as (p & _ & Hp).
    exists p. by eapply member_of_same. }
  destruct (Hlisted cg1 c1 Hcg1 Hc1)
    as (p1 & Hnm1 & Hlist1 & ch1 & Hch1 & Hn1 & Hgrp1).
  destruct (Hlisted cg2 c2 Hcg2 Hc2)
    as (p2 & Hnm2 & Hlist2 & ch2 & Hch2 & Hn2 & Hgrp2).
  rewrite <- Hname in Hnm2. rewrite Hnm1 in Hnm2. injection Hnm2 as <-.
  rewrite Hch1 in Hch2. injection Hch2 as <-.
  split; [by exists p1, ch1|].
  intros q1 q2 chq1 chq2.
  apply registry_inv_one_per_name. by eapply registry_inv_same.
Qed.

Lemma registry_inv_new (sr_device : nat) (ts : Q) (state0 : AquisitionState) :
  registry_inv (BaseDevice_new sr_device ts state0).
Proof.
  split.
  - intros n p Hn. simpl in Hn. by rewrite lookup_empty in Hn.
  - intros p ch Hp. simpl in Hp. by rewrite lookup_nil in Hp.
Qed.

Lemma one_channel_per_name_on_open_witness :
  ∃ d', open demo_driver demo_new = Returned d' ∧
        (∃ p ch, channel_name_map_ d' !! sr_name CH1 = Some p ∧
                 channels_ d' !! p = Some ch ∧
                 name ch = sr_name CH1 ∧
                 p ∈ group_list d' (cg_name demo_group_A) ∧
                 p ∈ group_list d' (cg_name demo_group_B) ∧
                 cg_name demo_group_A ∈ channel_group_names ch ∧
                 cg_name demo_group_B ∈ channel_group_names ch) ∧
        (∀ q1 q2 ch1 ch2,
           channels_ d' !! q1 = Some ch1 → channels_ d' !! q2 = Some ch2 →
           name ch1 = name ch2 → q1 = q2).
Proof.
  apply (one_channel_per_name_on_open demo_driver demo_new
           demo_group_A demo_group_B CH1 CH1).
  - apply registry_inv_new.
  - reflexivity.
  - repeat constructor.
  - repeat constructor.
  - repeat constructor.
  - repeat constructor.
  - reflexivity.
Defined.

(** On the demo device: one Channel named CH1, at address 0, in the lists
    of the groups A and B. *)
Example demo_registry :
  (name <$> channels_ demo_open) = ["CH1"; "CH2"] ∧
  channel_name_map_ demo_open !! "CH1" = Some 0 ∧
  group_list demo_open "A" = [0] ∧
  group_list demo_open "B" = [0; 1] ∧
  (elements ∘ channel_group_names <$> channels_ demo_open)
    = [["A"; "B"]; ["B"]].
Proof. repeat split; vm_compute; reflexivity. Qed.

(** The emission is the last statement of [add_channel]: the slot finds
    the registry as the call leaves it. *)
Lemma add_channel_view (p : ptr) (g : string) (d : BaseDevice)
    (ch : Channel) :
  channels_ d !! p = Some ch →
  slot_views_ (add_channel p g d)
    = slot_views_ d ++ [view_of (add_channel p g d)].
Proof.
  intros Hch. unfold add_channel. rewrite Hch.
  by repeat case_decide.
Qed.

Lemma add_sr_channel_view (c : sr_channel) (g : string) (d : BaseDevice) :
  registry_inv d →
  slot_views_ (add_sr_channel c g d).1
    = slot_views_ d ++ [view_of (add_sr_channel c g d).1].
Proof.
  intros [I1 _]. unfold add_sr_channel.
  destruct (channel_name_map_ d !! sr_name c) as [p|] eqn:Hname; simpl.
  - destruct (I1 _ _ Hname) as (ch & Hch & _). by eapply add_channel_view.
  - erewrite add_channel_view; [done|]. simpl. by apply list_lookup_middle.
Qed.

Lemma seen_member_of_view (d : BaseDevice) (n g : string) (p : ptr) :
  member_of d n g p ↔ seen_member_of (view_of d) n g p.
Proof. done. Qed.

(** C6, as the code has it. [init_channels] is a sequence of calls of
    [add_sr_channel]: one for every channel of every channel group and one
    for every channel of the device that [sr_channel_map_] does not hold
    when the second loop comes to it. The notifications fired are one per
    call, in the order of the calls. Each is the last effect of its call:
    the slot that takes it finds the registry as the call leaves it, with
    the Channel in the name map, in the list of the group and holding the
    membership of the group. A channel that is listed in several groups is
    thus notified once per group. *)
Theorem channel_added_once_per_listing (groups : list sr_channel_group)
    (chans : list sr_channel) (d : BaseDevice) :
  registry_inv d →
  let calls := group_listing groups ++
               other_listing chans (init_group_channels groups d) in
  init_channels groups chans d = add_all calls d ∧
  (∃ ps, notified d (init_channels groups chans d) = channel_added <$> ps ∧
         Forall2 (λ p call, member_of (init_channels groups chans d)
                              (sr_name call.1) call.2 p) ps calls) ∧
  (∀ k call, calls !! k = Some call →
     ∃ p v, emitted_ (add_all (take (S k) calls) d)
              = emitted_ (add_all (take k calls) d) ++ [channel_added p] ∧
            slot_views_ (add_all (take (S k) calls) d)
              = slot_views_ (add_all (take k calls) d) ++ [v] ∧
            seen_member_of v (sr_name call.1) call.2 p ∧
            v = view_of (add_all (take (S k) calls) d) ∧
            member_of (add_all (take (S k) calls) d)
              (sr_name call.1) call.2 p).
Proof.
  intros Hinv calls. pose proof (init_channels_calls groups chans d) as Hcalls.
  fold calls in Hcalls. split; [exact Hcalls|]. split.
  - rewrite Hcalls.
    destruct (add_all_spec calls d Hinv) as (_ & _ & ps & Hem & Hmem).
    exists ps. split; [|exact Hmem].
    unfold notified. rewrite Hem. apply drop_app_length.
  - intros k call Hk. rewrite (take_S_r _ _ _ Hk), add_all_snoc.
    destruct (add_all_spec (take k calls) d Hinv) as (Hinvk & _).
    destruct (add_sr_channel_spec call.1 call.2 _ Hinvk)
      as (_ & _ & Hmem & Hem).
    eexists _, _. split; [exact Hem|].
    split; [by apply add_sr_channel_view|].
    split; [by apply seen_member_of_view|]. split; [done|exact Hmem].
Qed.

Lemma channel_added_once_per_listing_witness :
  let calls := group_listing demo_groups ++
               other_listing [CH1; CH2; CH3]
                 (init_group_channels demo_groups demo_new) in
  init_channels demo_groups [CH1; CH2; CH3] demo_new = add_all calls demo_new ∧
  (∃ ps, notified demo_new (init_channels demo_groups [CH1; CH2; CH3] demo_new)
           = channel_added <$> ps ∧
         Forall2 (λ p call,
                    member_of (init_channels demo_groups [CH1; CH2; CH3] demo_new)
                      (sr_name call.1) call.2 p) ps calls) ∧
  (∀ k call, calls !! k = Some call →
     ∃ p v, emitted_ (add_all (take (S k) calls) demo_new)
              = emitted_ (add_all (take k calls) demo_new)
                ++ [channel_added p] ∧
            slot_views_ (add_all (take (S k) calls) demo_new)
              = slot_views_ (add_all (take k calls) demo_new) ++ [v] ∧
            seen_member_of v (sr_name call.1) call.2 p ∧
            v = view_of (add_all (take (S k) calls) demo_new) ∧
            member_of (add_all (take (S k) calls) demo_new)
              (sr_name call.1) call.2 p).
Proof.
  apply (channel_added_once_per_listing demo_groups [CH1; CH2; CH3] demo_new).
  apply registry_inv_new.
Defined.

(** On the demo device the slot that takes the first notification, for CH1
    in group A, finds CH1 registered in group A and nothing else: neither
    group B nor CH2. *)
Example demo_first_view :
  (λ v, (sv_channel_name_map v !! "CH1",
         sv_channel_group_name_map v !! "A",
         sv_channel_group_name_map v !! "B",
         elements ∘ channel_group_names <$> sv_channels v))
    <$> slot_views_ demo_open !! 0
  = Some (Some 0, Some [0], None, [["A"]]).
Proof. vm_compute. reflexivity. Qed.

(** C6, as the claim has it, fails on the demo device: CH1 is listed in
    the groups A and B, and its one Channel is notified twice. *)
Lemma channel_in_two_groups_is_notified_twice :
  (name <$> channels_ demo_open) = ["CH1"; "CH2"] ∧
  notified demo_new demo_open
    = [channel_added 0; channel_added 0; channel_added 1].
Proof. split; vm_compute; reflexivity. Qed.

(** ** Names *)

Lemma string_app_empty_l (s : string) : "" +:+ s = s.
Proof. reflexivity. Qed.

Lemma string_app_assoc (s1 s2 s3 : string) :
  (s1 +:+ s2) +:+ s3 = s1 +:+ (s2 +:+ s3).
Proof.
  induction s1 as [|a s1 IH]; [done|].
  change (String a ((s1 +:+ s2) +:+ s3) = String a (s1 +:+ (s2 +:+ s3))).
  by rewrite IH.
Qed.

Lemma not_empty_present (s : string) :
  not_empty s = true → present s = [s].
Proof. unfold present. by intros ->. Qed.

(** Joining with one more part at the end. *)
Lemma concat_snoc (sep : string) (parts : list string) (x : string) :
  String.concat sep (parts ++ [x])
  = match parts with
    | [] => x
    | _ => String.concat sep parts +:+ (sep +:+ x)
    end.
Proof.
  induction parts as [|y parts IH]; [done|].
  destruct parts as [|z parts]; [done|].
  change (y +:+ (sep +:+ String.concat sep ((z :: parts) ++ [x]))
          = (y +:+ (sep +:+ String.concat sep (z :: parts))) +:+ (sep +:+ x)).
  rewrite IH. by rewrite !string_app_assoc.
Qed.

Ltac name_cases i :=
  destruct i as [[|? ?] [|? ?] [|? ?] [|? ?] [|? ?]];
  cbn [vendor model version serial_number connection_id not_empty present
       wrapped app String.concat];
  rewrite ?string_app_empty_l, ?string_app_assoc; reflexivity.

(** X3. The three names of a device are its parts that are not empty, in
    order, joined by single spaces: vendor, model and the connection id in
    parentheses for [name]; vendor, model, version, serial number and the
    connection id in parentheses for [full_name]; vendor and model for
    [short_name]. A device without any of the parts has the empty name. *)
Theorem names_join_the_present_parts (i : sr_device_info) :
  BaseDevice_name i
  = String.concat " "
      (present (vendor i) ++ present (model i) ++
       wrapped "(" (connection_id i) ")") ∧
  full_name i
  = String.concat " "
      (present (vendor i) ++ present (model i) ++ present (version i) ++
       present (serial_number i) ++ wrapped "(" (connection_id i) ")") ∧
  short_name i
  = String.concat " " (present (vendor i) ++ present (model i)).
Proof.
  split; [|split].
  - unfold BaseDevice_name. name_cases i.
  - unfold full_name. name_cases i.
  - unfold short_name. name_cases i.
Qed.

Lemma multiple_dev_false (devices : list (nat * sr_device_info))
    (sr_device : nat) (i : sr_device_info) :
  (∀ dev, dev ∈ devices → vendor dev.2 = vendor i → model dev.2 = model i →
          dev.1 = sr_device) →
  multiple_dev devices sr_device i = false.
Proof.
  intros Hlone. apply bool_decide_eq_false. intros Hex.
  apply Exists_exists in Hex as (dev & Hin & Hv & Hm & Hne).
  apply Hne. by apply Hlone.
Qed.

Lemma multiple_dev_true (devices : list (nat * sr_device_info))
    (sr_device : nat) (i : sr_device_info) (dev : nat * sr_device_info) :
  dev ∈ devices → vendor dev.2 = vendor i → model dev.2 = model i →
  dev.1 ≠ sr_device →
  multiple_dev devices sr_device i = true.
Proof.
  intros Hin Hv Hm Hne. apply bool_decide_eq_true, Exists_exists.
  by exists dev.
Qed.

(** X4. A device that shares vendor and model with no other device of the
    device manager is displayed by its short name: version, serial number
    and connection id are left out. *)
Theorem display_name_of_lone_device (devices : list (nat * sr_device_info))
    (sr_device : nat) (i : sr_device_info) :
  (∀ dev, dev ∈ devices → vendor dev.2 = vendor i → model dev.2 = model i →
          dev.1 = sr_device) →
  display_name devices sr_device i = short_name i.
Proof.
  intros Hlone%multiple_dev_false. unfold display_name, short_name.
  rewrite Hlone. clear Hlone.
  destruct i as [[|? ?] [|? ?] ? ? ?];
    cbn [vendor model not_empty app String.concat];
    rewrite ?string_app_empty_l, ?string_app_assoc; reflexivity.
Qed.

Lemma display_name_of_lone_device_witness :
  display_name demo_devices 9 meter = short_name meter.
Proof.
  apply (display_name_of_lone_device demo_devices 9 meter).
  intros dev Hdev Hv Hm.
  repeat (apply elem_of_cons in Hdev as [->|Hdev]; [by vm_compute in Hm|]);
    [by vm_compute in Hm..|].
  by apply elem_of_nil in Hdev.
Defined.

Lemma string_app_inj_char (s1 s2 : string) (a : Ascii.ascii) :
  s1 +:+ String a "" = s2 +:+ String a "" → s1 = s2.
Proof.
  revert s2. induction s1 as [|b s1 IH]; intros [|c s2] Heq; [done|..].
  - injection Heq as _ Heq. by destruct s2.
  - injection Heq as _ Heq. by destruct s1.
  - injection Heq as -> Heq. f_equal. by apply IH.
Qed.

Lemma display_name_with_serial (devices : list (nat * sr_device_info))
    (sr_device : nat) (i : sr_device_info) :
  multiple_dev devices sr_device i = true →
  not_empty (serial_number i) = true →
  display_name devices sr_device i
  = String.concat " "
      ((present (vendor i) ++ present (model i) ++ present (version i))
       ++ [("[S/N: " +:+ serial_number i) +:+ "]"]).
Proof.
  intros Hmulti Hserial. unfold display_name. rewrite Hmulti, Hserial.
  clear Hmulti Hserial.
  by destruct i as [[|? ?] [|? ?] [|? ?] ? ?].
Qed.

(** X5. Two devices of the device manager with the same vendor, model and
    version and with different serial numbers, neither empty, are told
    apart: the display name of each is its vendor, model and version, as
    far as present, and its serial number as [[S/N: ...]], joined by single
    spaces, and the two display names differ. *)
Theorem display_name_tells_apart (devices : list (nat * sr_device_info))
    (sr_device1 sr_device2 : nat) (i1 i2 : sr_device_info) :
  (sr_device1, i1) ∈ devices → (sr_device2, i2) ∈ devices →
  sr_device1 ≠ sr_device2 →
  vendor i1 = vendor i2 → model i1 = model i2 → version i1 = version i2 →
  not_empty (serial_number i1) = true →
  not_empty (serial_number i2) = true →
  serial_number i1 ≠ serial_number i2 →
  display_name devices sr_device1 i1
  = String.concat " "
      ((present (vendor i1) ++ present (model i1) ++ present (version i1))
       ++ [("[S/N: " +:+ serial_number i1) +:+ "]"]) ∧
  display_name devices sr_device2 i2
  = String.concat " "
      ((present (vendor i2) ++ present (model i2) ++ present (version i2))
       ++ [("[S/N: " +:+ serial_number i2) +:+ "]"]) ∧
  display_name devices sr_device1 i1 ≠ display_name devices sr_device2 i2.
Proof.
  intros Hin1 Hin2 Hne Hv Hm Hver Hs1 Hs2 Hserial.
  assert (multiple_dev devices sr_device1 i1 = true) as Hmulti1.
  { by apply (multiple_dev_true _ _ _ (sr_device2, i2)). }
  assert (multiple_dev devices sr_device2 i2 = true) as Hmulti2.
  { by apply (multiple_dev_true _ _ _ (sr_device1, i1)). }
  rewrite (display_name_with_serial _ _ _ Hmulti1 Hs1).
  rewrite (display_name_with_serial _ _ _ Hmulti2 Hs2).
  split; [done|]. split; [done|].
  rewrite !concat_snoc, Hv, Hm, Hver. intros Heq. apply Hserial.
  assert (("[S/N: " +:+ serial_number i1) +:+ "]"
          = ("[S/N: " +:+ serial_number i2) +:+ "]") as Hpart.
  { destruct (present (vendor i2) ++ present (model i2)
              ++ present (version i2)); [done|].
    by do 2 apply (inj (String.app _)) in Heq. }
  apply string_app_inj_char in Hpart. by apply (inj (String.app _)) in Hpart.
Qed.

Lemma display_name_tells_apart_witness :
  display_name demo_devices 7 supply_1
  = String.concat " "
      ((present (vendor supply_1) ++ present (model supply_1) ++
        present (version supply_1))
       ++ [("[S/N: " +:+ serial_number supply_1) +:+ "]"]) ∧
  display_name demo_devices 8 supply_2
  = String.concat " "
      ((present (vendor supply_2) ++ present (model supply_2) ++
        present (version supply_2))
       ++ [("[S/N: " +:+ serial_number supply_2) +:+ "]"]) ∧
  display_name demo_devices 7 supply_1 ≠ display_name demo_devices 8 supply_2.
Proof.
  apply (display_name_tells_apart demo_devices 7 8 supply_1 supply_2);
    try reflexivity; try discriminate.
  - repeat constructor.
  - repeat constructor.
Defined.

Example demo_display_names :
  display_name demo_devices 7 supply_1 = "Acme X1 1.0 [S/N: A17]" ∧
  display_name demo_devices 8 supply_2 = "Acme X1 1.0 [S/N: B42]" ∧
  display_name demo_devices 9 meter = "DMM" ∧
  full_name meter = "DMM 77 (usb/1-2)".
Proof. repeat split; vm_compute; reflexivity. Qed.

(** ** The device type *)

Lemma device_type_loop_none (get_device_type : nat → DeviceType)
    (sr_keys : list nat) (type_ : DeviceType) :
  Forall (λ k, device_type_of_use (get_device_type k) = false) sr_keys →
  device_type_loop get_device_type sr_keys type_ = type_.
Proof.
  induction 1 as [|k ks Hk _ IH]; [done|]. simpl. by rewrite Hk.
Qed.

Lemma device_type_loop_first (get_device_type : nat → DeviceType)
    (pre post : list nat) (k : nat) (type_ : DeviceType) :
  Forall (λ k, device_type_of_use (get_device_type k) = false) pre →
  device_type_of_use (get_device_type k) = true →
  device_type_loop get_device_type (pre ++ k :: post) type_
  = get_device_type k.
Proof.
  intros Hpre Hk. induction Hpre as [|k0 pre Hk0 _ IH]; simpl.
  - by rewrite Hk.
  - by rewrite Hk0.
Qed.

Lemma device_type_loop_cases (get_device_type : nat → DeviceType)
    (sr_keys : list nat) :
  Forall (λ k, device_type_of_use (get_device_type k) = false) sr_keys ∨
  ∃ pre k post,
    sr_keys = pre ++ k :: post ∧
    Forall (λ k, device_type_of_use (get_device_type k) = false) pre ∧
    device_type_of_use (get_device_type k) = true.
Proof.
  induction sr_keys as [|k ks IH]; [by left|].
  destruct (device_type_of_use (get_device_type k)) eqn:Hk.
  - right. by exists [], k, ks.
  - destruct IH as [Hnone|(pre & k' & post & -> & Hpre & Hk')].
    + left. by constructor.
    + right. exists (k :: pre), k', post. split; [done|]. split; [|done].
      by constructor.
Qed.

(** X6. The construction of a hardware device gives it a type in every
    build, for any configuration keys of the driver: the type of the first
    key whose type is one of the thirteen the application has a use for,
    and [Unknown] exactly when no key has such a type. The assertion on an
    unknown device stops no build. *)
Theorem device_type_is_first_of_use (bld : build)
    (get_device_type : nat → DeviceType) (sr_keys : list nat) :
  ∃ type_,
    HardwareDevice_type bld get_device_type sr_keys = Some type_ ∧
    (type_ = Unknown ∨ device_type_of_use type_ = true) ∧
    (type_ = Unknown ↔
     Forall (λ k, device_type_of_use (get_device_type k) = false) sr_keys) ∧
    (∀ pre k post,
       sr_keys = pre ++ k :: post →
       Forall (λ k, device_type_of_use (get_device_type k) = false) pre →
       device_type_of_use (get_device_type k) = true →
       type_ = get_device_type k).
Proof.
  exists (device_type_loop get_device_type sr_keys Unknown). split.
  { unfold HardwareDevice_type. case_decide; [|done]. by destruct bld. }
  destruct (device_type_loop_cases get_device_type sr_keys)
    as [Hnone|(pre & k & post & -> & Hpre & Hk)].
  - rewrite (device_type_loop_none _ _ _ Hnone).
    split; [by left|]. split; [done|].
    intros pre k post -> Hpre Hk.
    apply Forall_app in Hnone as [_ Hnone].
    apply Forall_cons in Hnone as [Hk' _]. congruence.
  - rewrite (device_type_loop_first _ _ _ _ _ Hpre Hk).
    split; [by right|]. split.
    + split.
      * intros Hun. rewrite Hun in Hk. done.
      * intros Hnone. apply Forall_app in Hnone as [_ Hnone].
        apply Forall_cons in Hnone as [Hk' _]. congruence.
    + intros pre' k' post' Heq Hpre' Hk'.
      by rewrite <- (device_type_loop_first _ pre' post' k' Unknown Hpre' Hk'),
        <- Heq, (device_type_loop_first _ _ _ _ _ Hpre Hk).
Qed.

(** ** What the packet dispatch never does *)

Lemma feed_in_analog_loop_channels_only (bld : build) (a : Analog)
    (clock : nat → Z) (rate : Z) (cs : list sr_channel) :
  ∀ (i : nat) (d d' : BaseDevice),
    feed_in_analog_loop bld a clock rate i cs d = Done d' →
    d' = set_channels_ (channels_ d') d ∧
    length (channels_ d') = length (channels_ d).
Proof.
  induction cs as [|c cs IH]; intros i d d' Hrun; simpl in Hrun.
  - injection Hrun as ->. by rewrite set_channels_same.
  - destruct (if decide (sr_channel_map_ d !! sr_ptr c = None)
              then cxx_assert bld string_literal_as_condition else true);
      [|done].
    destruct (sr_channel_map_ d !! sr_ptr c) as [x|] eqn:Hc.
    + rewrite (map_insert_new_present _ _ _ _ Hc) in Hrun.
      rewrite set_sr_channel_map_same, Hc in Hrun.
      destruct x as [p|]; [|done].
      apply IH in Hrun as [Hd' Hlen]. simpl in Hlen.
      rewrite length_alter in Hlen. split; [|done].
      rewrite Hd' at 1. by rewrite set_channels_twice.
    + rewrite (map_insert_new_absent _ _ _ Hc) in Hrun. simpl in Hrun.
      by rewrite lookup_insert_eq in Hrun.
Qed.

Lemma feed_in_meta_loop_keys (size : nat) (sr_meta : Meta)
    (m : list (string * Configurable)) :
  (feed_in_meta_loop size sr_meta m).*1 = m.*1.
Proof.
  induction m as [|[k c] m IH]; [done|]. cbn [feed_in_meta_loop].
  case_decide; rewrite !fmap_cons; [by rewrite IH|done].
Qed.

Lemma data_feed_in_untouched (bld : build) (sr_device : nat)
    (sr_packet : Packet) (clock : nat → Z) (d d' : BaseDevice) :
  data_feed_in bld sr_device sr_packet clock d = Done d' →
  untouched_by_packets d' = untouched_by_packets d.
Proof.
  unfold data_feed_in.
  destruct (decide (sr_device ≠ sr_device_ d)); [by intros [= ->]|].
  destruct sr_packet; try (by intros [= <-]).
  - intros [= <-]. unfold untouched_by_packets, feed_in_meta. simpl.
    by rewrite feed_in_meta_loop_keys.
  - destruct (decide (aquisition_state_ d ≠ Running)); by intros [= <-].
  - destruct (decide (aquisition_state_ d ≠ Running)); [by intros [= <-]|].
    unfold feed_in_analog. destruct (decide (num_samples sr_analog = 0));
      [by intros [= <-]|].
    intros [Hd' Hlen]%feed_in_analog_loop_channels_only.
    unfold untouched_by_packets. rewrite Hlen, Hd'. done.
Qed.

Lemma data_feed_untouched (bld : build) (ps : list delivery) :
  ∀ d d' : BaseDevice,
    data_feed bld ps d = Done d' →
    untouched_by_packets d' = untouched_by_packets d.
Proof.
  induction ps as [|dl ps IH]; intros d d' Hrun; simpl in Hrun.
  - by injection Hrun as ->.
  - destruct (data_feed_in bld (dl_device dl) (dl_packet dl) (dl_clock dl) d)
      as [d1| |] eqn:Hfirst; [|done..].
    rewrite (IH _ _ Hrun). by eapply data_feed_in_untouched.
Qed.

Lemma data_feed_in_configurables (bld : build) (sr_device : nat)
    (sr_packet : Packet) (clock : nat → Z) (d d' : BaseDevice) :
  not_meta sr_packet →
  data_feed_in bld sr_device sr_packet clock d = Done d' →
  configurable_map_ d' = configurable_map_ d.
Proof.
  intros Hmeta. unfold data_feed_in.
  destruct (decide (sr_device ≠ sr_device_ d)); [by intros [= ->]|].
  destruct sr_packet; try (by intros [= <-]); [|].
  - destruct (decide (aquisition_state_ d ≠ Running)); by intros [= <-].
  - destruct (decide (aquisition_state_ d ≠ Running)); [by intros [= <-]|].
    unfold feed_in_analog. destruct (decide (num_samples sr_analog = 0));
      [by intros [= <-]|].
    intros [Hd' _]%feed_in_analog_loop_channels_only. by rewrite Hd'.
Qed.

(** X7. Whatever packets the device is handed, of whatever device, as long
    as each is handled to its end: the dispatch never changes the
    lifecycle members of the device (session, thread, open flag,
    acquisition state, start timestamp), it assigns neither
    [samplerate_prop_] nor the cached [cur_samplerate_], it changes
    neither the name map, the group map nor [sr_channel_map_], it emits no
    notification, and it neither adds nor removes a Channel or a
    Configurable nor changes a Configurable's key. The sample rate that is
    read through [samplerate_prop_] is the value of a property of a
    Configurable: it stays the same over packets none of which is a Meta
    packet, and so do all Configurables. *)
Theorem packets_leave_lifecycle_and_registry (bld : build)
    (ps : list delivery) :
  ∀ d d' : BaseDevice,
    data_feed bld ps d = Done d' →
    untouched_by_packets d' = untouched_by_packets d ∧
    (Forall (λ dl, not_meta (dl_packet dl)) ps →
     configurable_map_ d' = configurable_map_ d ∧
     resolved_samplerate d' = resolved_samplerate d).
Proof.
  induction ps as [|dl ps IH]; intros d d' Hrun; simpl in Hrun.
  - by injection Hrun as ->.
  - destruct (data_feed_in bld (dl_device dl) (dl_packet dl) (dl_clock dl) d)
      as [d1| |] eqn:Hfirst; [|done..].
    destruct (IH _ _ Hrun) as [Hsame Hrate].
    pose proof (data_feed_in_untouched _ _ _ _ _ _ Hfirst) as Hsame1.
    split; [by rewrite Hsame|].
    intros [Hdl Hps]%Forall_cons_1. destruct (Hrate Hps) as [Hmap Hread].
    pose proof (data_feed_in_configurables _ _ _ _ _ _ Hdl Hfirst) as Hmap1.
    split; [by rewrite Hmap|]. rewrite Hread.
    injection Hsame1 as _ _ _ _ _ _ Hprop _ _ _ _ _ _ _ _.
    unfold resolved_samplerate, uint64_value. by rewrite Hprop, Hmap1.
Qed.

Lemma packets_leave_lifecycle_and_registry_witness :
  data_feed AssertsOn (demo_frame_begin :: demo_frame_packets) demo_open
    = Done demo_in_frame ∧
  untouched_by_packets demo_in_frame = untouched_by_packets demo_open ∧
  (Forall (λ dl, not_meta (dl_packet dl))
     (demo_frame_begin :: demo_frame_packets) →
   configurable_map_ demo_in_frame = configurable_map_ demo_open ∧
   resolved_samplerate demo_in_frame = resolved_samplerate demo_open).
Proof.
  split; [vm_compute; reflexivity|].
  apply (packets_leave_lifecycle_and_registry AssertsOn
           (demo_frame_begin :: demo_frame_packets) demo_open demo_in_frame).
  vm_compute. reflexivity.
Defined.

(** A Meta packet does change the sample rate that is read, where the
    Configurable of the device is the only one: the sample of the analog
    packet that follows carries the rate the Meta packet reported, while
    [samplerate_prop_] and [cur_samplerate_] are as [init_configurables]
    left them. Where a channel group has a Configurable too, the Meta
    packet goes to that one and the rate that is read stays. *)
Example meta_sets_the_sample_rate :
  resolved_samplerate lone_configured = 5%Z ∧
  (∃ d', data_feed AssertsOn rate_packets lone_configured = Done d' ∧
         s_samplerate <$> signal_of d' 0 = [1000%Z] ∧
         resolved_samplerate d' = 1000%Z ∧
         samplerate_prop_ d' = Some (property_of "") ∧
         cur_samplerate_ d' = 5%Z) ∧
  resolved_samplerate demo_configured = 5%Z ∧
  (∃ d', data_feed_in AssertsOn 7
           (SR_DF_META [(SR_CONF_SAMPLERATE, 1000%Z)]) (clock_from 100)
           demo_configured = Done d' ∧
         resolved_samplerate d' = 5%Z).
Proof.
  split; [by vm_compute|]. split.
  - eexists. split; [vm_compute; reflexivity|]. by vm_compute.
  - split; [by vm_compute|].
    eexists. split; [vm_compute; reflexivity|]. by vm_compute.
Qed.

Lemma data_feed_in_gated (bld : build) (sr_device : nat) (sr_packet : Packet)
    (clock : nat → Z) (d : BaseDevice) :
  aquisition_state_ d ≠ Running → gated_or_passive sr_packet →
  data_feed_in bld sr_device sr_packet clock d = Done d.
Proof.
  intros Hstate Hgated. unfold data_feed_in.
  destruct (decide (sr_device ≠ sr_device_ d)); [done|].
  destruct sr_packet; try done; by rewrite decide_True.
Qed.

(** X8. Nothing is kept of the packets that arrive while the acquisition
    state is not Running: any sequence of Header, Trigger, Logic, Analog
    and End packets and packets of other tags leaves the device as it is.
    So a device that is paused, is handed such packets and is started
    again is the device that was started without them. *)
Theorem packets_are_not_kept_while_paused (bld : build)
    (ps : list delivery) (d : BaseDevice) :
  Forall (λ dl, gated_or_passive (dl_packet dl)) ps →
  (aquisition_state_ d ≠ Running → data_feed bld ps d = Done d) ∧
  data_feed bld ps (pause_aquisition d) = Done (pause_aquisition d) ∧
  ∃ d', data_feed bld ps (pause_aquisition d) = Done d' ∧
        start_aquisition d' = start_aquisition d.
Proof.
  intros Hps.
  assert (∀ d0, aquisition_state_ d0 ≠ Running →
                data_feed bld ps d0 = Done d0) as Hdrop.
  { intros d0 Hstate. induction Hps as [|dl ps Hdl _ IH]; [done|].
    simpl. by rewrite (data_feed_in_gated _ _ _ _ _ Hstate Hdl). }
  split; [apply Hdrop|].
  assert (data_feed bld ps (pause_aquisition d) = Done (pause_aquisition d))
    as Hpaused by (by apply Hdrop).
  split; [exact Hpaused|]. by exists (pause_aquisition d).
Qed.

Lemma packets_are_not_kept_while_paused_witness :
  (aquisition_state_ demo_new ≠ Running →
   data_feed AssertsOn demo_frame_packets demo_new = Done demo_new) ∧
  data_feed AssertsOn demo_frame_packets (pause_aquisition demo_open)
    = Done (pause_aquisition demo_open) ∧
  ∃ d', data_feed AssertsOn demo_frame_packets (pause_aquisition demo_open)
          = Done d' ∧
        start_aquisition d' = start_aquisition demo_open.
Proof.
  split.
  - apply (packets_are_not_kept_while_paused AssertsOn demo_frame_packets
             demo_new).
    repeat constructor.
  - apply (packets_are_not_kept_while_paused AssertsOn demo_frame_packets
             demo_open).
    repeat constructor.
Defined.

(** ** Meta packets and the device-level Configurable *)

Lemma feed_in_meta_loop_passes_device_level (size : nat) (sr_meta : Meta)
    (m : list (string * Configurable)) :
  1 < size →
  ∀ i c, m !! i = Some ("", c) →
         feed_in_meta_loop size sr_meta m !! i = Some ("", c).
Proof.
  intros Hsize. induction m as [|[k0 c0] m IH]; intros i c Hi; [done|].
  cbn [feed_in_meta_loop]. destruct (decide ((k0, c0).1 = "" ∧ 1 < size))
    as [_|Hno].
  - destruct i as [|i]; [done|]. simpl in *. by apply IH.
  - destruct i as [|i]; [|done]. simpl in Hi. injection Hi as -> ->.
    destruct Hno. by split.
Qed.

Lemma data_feed_in_device_level (bld : build) (sr_device : nat)
    (sr_packet : Packet) (clock : nat → Z) (d d' : BaseDevice) :
  1 < length (configurable_map_ d) →
  data_feed_in bld sr_device sr_packet clock d = Done d' →
  ∀ i c, configurable_map_ d !! i = Some ("", c) →
         configurable_map_ d' !! i = Some ("", c).
Proof.
  intros Hlen. unfold data_feed_in.
  destruct (decide (sr_device ≠ sr_device_ d)); [by intros [= ->]|].
  destruct sr_packet; try (by intros [= <-]).
  - intros [= <-] i c Hi. simpl.
    by apply feed_in_meta_loop_passes_device_level.
  - destruct (decide (aquisition_state_ d ≠ Running)); by intros [= <-].
  - destruct (decide (aquisition_state_ d ≠ Running)); [by intros [= <-]|].
    unfold feed_in_analog. destruct (decide (num_samples sr_analog = 0));
      [by intros [= <-]|].
    intros [Hd' _]%feed_in_analog_loop_channels_only. by rewrite Hd'.
Qed.

(** X9. In a registry of two or more Configurables the one keyed by the
    empty name, the device-level Configurable, is never fed a Meta packet:
    whatever packets the device is handed, it stays as it is. *)
Theorem device_level_configurable_is_never_fed (bld : build)
    (ps : list delivery) :
  ∀ d d' : BaseDevice,
    1 < length (configurable_map_ d) →
    data_feed bld ps d = Done d' →
    ∀ i c, configurable_map_ d !! i = Some ("", c) →
           configurable_map_ d' !! i = Some ("", c).
Proof.
  induction ps as [|dl ps IH]; intros d d' Hlen Hrun i c Hi;
    simpl in Hrun.
  - by injection Hrun as <-.
  - destruct (data_feed_in bld (dl_device dl) (dl_packet dl) (dl_clock dl) d)
      as [d1| |] eqn:Hfirst; [|done..].
    apply (IH d1 d'); [|done|by eapply data_feed_in_device_level].
    apply data_feed_in_untouched in Hfirst.
    assert ((configurable_map_ d1).*1 = (configurable_map_ d).*1) as Hkeys
      by (by injection Hfirst).
    apply (f_equal length) in Hkeys. rewrite !length_fmap in Hkeys.
    by rewrite Hkeys.
Qed.

Lemma device_level_configurable_is_never_fed_witness :
  1 < length (configurable_map_ demo_configured) ∧
  data_feed AssertsOn demo_meta_packets demo_configured
    = Done demo_after_meta ∧
  ∀ i c, configurable_map_ demo_configured !! i = Some ("", c) →
         configurable_map_ demo_after_meta !! i = Some ("", c).
Proof.
  split; [vm_compute; lia|]. split; [vm_compute; reflexivity|].
  apply (device_level_configurable_is_never_fed AssertsOn demo_meta_packets
           demo_configured demo_after_meta).
  - vm_compute. lia.
  - vm_compute. reflexivity.
Defined.

(** On the demo device both Meta packets go to the Configurable of group
    B. *)
Example demo_meta_trace :
  map (λ e, (e.1, cf_meta e.2)) (configurable_map_ demo_after_meta)
  = [("", []); ("B", [demo_meta; [(2, 20%Z)]])].
Proof. vm_compute. reflexivity. Qed.

(** ** The Configurable registry *)

Lemma key_lt_irrefl (k : string) : ¬ key_lt k k.
Proof.
  unfold key_lt. intros Hlt. pose proof (String.compare_antisym k k) as Hanti.
  rewrite Hlt in Hanti. done.
Qed.

Lemma key_lt_trans (k1 k2 k3 : string) :
  key_lt k1 k2 → key_lt k2 k3 → key_lt k1 k3.
Proof.
  unfold key_lt. intros H12 H23.
  assert (String.le k1 k3) as Hle.
  { trans k2; unfold String.le, String.leb; [by rewrite H12|by rewrite H23]. }
  unfold String.le, String.leb in Hle.
  destruct (String.compare k1 k3) eqn:H13; [|done..].
  apply String.compare_eq_iff in H13 as ->.
  pose proof (String.compare_antisym k2 k3) as Hanti.
  rewrite H23, H12 in Hanti. done.
Qed.

Lemma key_lt_empty (k : string) : k ≠ "" → key_lt "" k.
Proof. by destruct k. Qed.

Lemma keys_ascending_NoDup {V : Type} (m : list (string * V)) :
  keys_ascending m → NoDup m.*1.
Proof.
  unfold keys_ascending. induction 1 as [|k ks _ IH Hk]; constructor; [|done].
  intros Hin. rewrite Forall_forall in Hk.
  by apply (key_lt_irrefl k), Hk.
Qed.

Section smap_insert.

Context {V : Type} (k : string) (v : V).

Lemma smap_insert_keys (m : list (string * V)) (k' : string) :
  k' ∈ (smap_insert k v m).*1 ↔ k' = k ∨ k' ∈ m.*1.
Proof.
  induction m as [|[k0 v0] m IH]; simpl.
  - rewrite list_elem_of_singleton. split; [by left|].
    intros [Hk|Hk]; [done|]. by apply elem_of_nil in Hk.
  - destruct (String.compare k k0) eqn:Hcmp; simpl.
    + apply String.compare_eq_iff in Hcmp. subst k0.
      split; [by right|]. intros [->|Hk]; [left|done].
    + apply elem_of_cons.
    + rewrite !elem_of_cons, IH. tauto.
Qed.

Lemma smap_insert_keeps (m : list (string * V)) (e : string * V) :
  e ∈ m → e ∈ smap_insert k v m.
Proof.
  induction m as [|[k0 v0] m IH]; [by intros ?%elem_of_nil|]. simpl.
  destruct (String.compare k k0); [done|by right|].
  intros [->|He]%elem_of_cons; [left|right; by apply IH].
Qed.

Lemma smap_insert_ascending (m : list (string * V)) :
  keys_ascending m → keys_ascending (smap_insert k v m).
Proof.
  unfold keys_ascending. induction m as [|[k0 v0] m IH]; simpl.
  - intros _. repeat constructor.
  - intros [Hm Hk0]%StronglySorted_inv.
    destruct (String.compare k k0) eqn:Hcmp; simpl.
    + by constructor.
    + constructor; [by constructor|]. constructor; [done|].
      eapply Forall_impl; [exact Hk0|]. intros k1. by apply key_lt_trans.
    + constructor; [by apply IH|]. apply Forall_forall.
      intros k1 [->|Hk1]%smap_insert_keys.
      * unfold key_lt. rewrite String.compare_antisym, Hcmp. done.
      * rewrite Forall_forall in Hk0. by apply Hk0.
Qed.

End smap_insert.

Lemma init_group_configurables_registry (groups : list sr_channel_group) :
  ∀ d : BaseDevice,
    keys_ascending (configurable_map_ d) →
    keys_ascending (configurable_map_ (init_group_configurables groups d)) ∧
    (∀ k, k ∈ (configurable_map_ (init_group_configurables groups d)).*1 ↔
          k ∈ (configurable_map_ d).*1 ∨ k ∈ groups_with_keys groups) ∧
    (∀ e, e ∈ configurable_map_ d →
          e ∈ configurable_map_ (init_group_configurables groups d)).
Proof.
  unfold init_group_configurables, groups_with_keys.
  induction groups as [|cg groups IH]; intros d Hasc.
  - split; [done|]. split; [|done]. intros k. split; [by left|].
    intros [Hk|Hk]; [done|]. by apply elem_of_nil in Hk.
  - cbn [foldl]. rewrite filter_cons.
    destruct (cg_config_keys cg) as [|key keys] eqn:Hkeys.
    + rewrite decide_False by (intros Hne; by apply Hne). by apply IH.
    + rewrite decide_True by done.
      set (d1 := set_configurable_map_ _ _).
      destruct (IH d1) as (Hasc' & Hkeys' & Hkept').
      { subst d1. simpl. by apply smap_insert_ascending. }
      split; [done|]. split.
      * intros k. rewrite Hkeys'. subst d1. simpl.
        rewrite smap_insert_keys, elem_of_cons. tauto.
      * intros e He. apply Hkept'. subst d1. simpl.
        by apply smap_insert_keeps.
Qed.

Lemma device_ck_cnt_zero (known : nat → bool) (keys : list nat) :
  length (filter (λ key, known key = true) keys) = 0 ↔
  ¬ Exists (λ key, known key = true) keys.
Proof.
  induction keys as [|key keys IH].
  - split; [|done]. intros _ Hex. by apply Exists_nil in Hex.
  - rewrite filter_cons, Exists_cons. destruct (decide (known key = true)).
    + simpl. split; [done|]. intros Hno. destruct Hno. by left.
    + rewrite IH. tauto.
Qed.

(** X10. [init_configurables] keeps the registry of Configurables a map:
    if its keys ascend they still do afterwards, so they stay distinct. It
    removes and replaces no entry. The keys afterwards are those before,
    the names of the channel groups that have configuration keys, and the
    empty name if the application knows one of the device's own keys. *)
Theorem init_configurables_registry (known : nat → bool) (drv : Driver)
    (d : BaseDevice) :
  keys_ascending (configurable_map_ d) →
  keys_ascending (configurable_map_ (init_configurables known drv d)) ∧
  NoDup (configurable_map_ (init_configurables known drv d)).*1 ∧
  (∀ e, e ∈ configurable_map_ d →
        e ∈ configurable_map_ (init_configurables known drv d)) ∧
  (∀ k, k ∈ (configurable_map_ (init_configurables known drv d)).*1 ↔
        k ∈ (configurable_map_ d).*1 ∨
        k ∈ groups_with_keys (drv_channel_groups drv) ∨
        (k = "" ∧ device_key_known known drv)).
Proof.
  intros Hasc.
  destruct (init_group_configurables_registry (drv_channel_groups drv) d Hasc)
    as (Hasc1 & Hkeys1 & Hkept1).
  assert (keys_ascending (configurable_map_ (init_configurables known drv d)) ∧
          (∀ e, e ∈ configurable_map_ d →
                e ∈ configurable_map_ (init_configurables known drv d)) ∧
          (∀ k, k ∈ (configurable_map_ (init_configurables known drv d)).*1 ↔
                k ∈ (configurable_map_ d).*1 ∨
                k ∈ groups_with_keys (drv_channel_groups drv) ∨
                (k = "" ∧ device_key_known known drv))) as (H1 & H2 & H3).
  { unfold init_configurables, device_key_known.
    destruct (decide (length (filter (λ key, known key = true)
                                (drv_config_keys drv)) = 0)) as [Hcnt|Hcnt].
    - apply device_ck_cnt_zero in Hcnt.
      split; [done|]. split; [done|]. intros k. rewrite Hkeys1. tauto.
    - rewrite device_ck_cnt_zero in Hcnt. apply dec_stable in Hcnt.
      destruct (drv_samplerate drv) as [value|]; simpl;
        (split; [by apply smap_insert_ascending|]; split;
         [intros e He; by apply smap_insert_keeps, Hkept1
         |intros k; rewrite smap_insert_keys, Hkeys1; tauto]). }
  split; [done|]. split; [by apply keys_ascending_NoDup|]. by split.
Qed.

Lemma init_configurables_registry_witness :
  keys_ascending (configurable_map_ demo_configured) ∧
  NoDup (configurable_map_ demo_configured).*1 ∧
  (∀ e, e ∈ configurable_map_ demo_open → e ∈ configurable_map_ demo_configured) ∧
  (∀ k, k ∈ (configurable_map_ demo_configured).*1 ↔
        k ∈ (configurable_map_ demo_open).*1 ∨
        k ∈ groups_with_keys (drv_channel_groups demo_driver) ∨
        (k = "" ∧ device_key_known (λ key, bool_decide (key = 1)) demo_driver)).
Proof.
  apply (init_configurables_registry (λ key, bool_decide (key = 1))
           demo_driver demo_open).
  constructor.
Defined.

(** ** Open and close *)

Lemma add_channel_untouched (p : ptr) (g : string) (d : BaseDevice) :
  untouched_by_registry (add_channel p g d) = untouched_by_registry d.
Proof.
  unfold add_channel. destruct (channels_ d !! p) as [ch|]; [|done].
  by repeat case_decide.
Qed.

Lemma add_sr_channel_untouched (c : sr_channel) (g : string)
    (d : BaseDevice) :
  untouched_by_registry (add_sr_channel c g d).1 = untouched_by_registry d.
Proof.
  unfold add_sr_channel.
  destruct (channel_name_map_ d !! sr_name c); simpl;
    by rewrite add_channel_untouched.
Qed.

Lemma add_all_untouched (calls : list (sr_channel * string)) :
  ∀ d, untouched_by_registry (add_all calls d) = untouched_by_registry d.
Proof.
  induction calls as [|call calls IH]; intros d; [done|].
  change (add_all (call :: calls) d)
    with (add_all calls (add_sr_channel call.1 call.2 d).1).
  by rewrite IH, add_sr_channel_untouched.
Qed.

Lemma init_channels_untouched (groups : list sr_channel_group)
    (chans : list sr_channel) (d : BaseDevice) :
  untouched_by_registry (init_channels groups chans d)
  = untouched_by_registry d.
Proof. rewrite init_channels_calls. apply add_all_untouched. Qed.

(** X11. [open] throws exactly when the driver fails to open the device,
    with the driver's message. Otherwise it returns a device that is open,
    Running, with a joinable thread; if the device was open before, it was
    closed first, so that the session holds the device once and one
    datafeed callback. A [close] of the opened device, whether or not the
    driver's close fails, returns a device that is not open, Stopped, with
    the thread joined and a stopped session without devices and callbacks;
    it keeps the channel registry, the Channels and the notifications as
    [open] left them. *)
Theorem open_close_lifecycle (drv drv' : Driver) (d : BaseDevice) :
  (∀ what, open drv d = Threw what ↔ drv_open_error drv = Some what) ∧
  (drv_open_error drv = None →
   ∃ d1, open drv d = Returned d1 ∧
         device_open_ d1 = true ∧ aquisition_state_ d1 = Running ∧
         aquisition_thread_ d1 = true ∧ sr_device_ d1 = sr_device_ d ∧
         (device_open_ d = true →
          ses_devices (sr_session_ d1) = [sr_device_ d] ∧
          ses_datafeed_callbacks (sr_session_ d1) = 1) ∧
         ∃ d2, close drv' d1 = Returned d2 ∧
               device_open_ d2 = false ∧ aquisition_state_ d2 = Stopped ∧
               aquisition_thread_ d2 = false ∧
               ses_devices (sr_session_ d2) = [] ∧
               ses_datafeed_callbacks (sr_session_ d2) = 0 ∧
               ses_stopped (sr_session_ d2) = true ∧
               same_registry d1 d2).
Proof.
  destruct (close_returns drv d) as (d0 & Hclose & Hclosed).
  assert (∃ d0, (if device_open_ d then close drv d else Returned d)
                = Returned d0 ∧ sr_device_ d0 = sr_device_ d ∧
                (device_open_ d = true →
                 ses_devices (sr_session_ d0) = [] ∧
                 ses_datafeed_callbacks (sr_session_ d0) = 0))
    as (d0' & Hfirst & Hdev0 & Hses0).
  { destruct (device_open_ d) eqn:Hopen; [|by exists d].
    exists d0. split; [done|]. revert Hclose. unfold close, sr_device_close.
    rewrite Hopen. simpl.
    destruct (aquisition_thread_ d), (drv_close_error drv); simpl;
      by intros [= <-]. }
  split.
  - intros what. unfold open, sr_device_open. rewrite Hfirst. simpl.
    destruct (drv_open_error drv) as [what'|]; simpl; [|done].
    split; congruence.
  - intros Hdrv. unfold open, sr_device_open. rewrite Hfirst, Hdrv. simpl.
    set (dI := init_channels _ _ _).
    pose proof (init_channels_untouched (drv_channel_groups drv)
                  (drv_channels drv)
                  (set_sr_session_
                     (session_add_device (sr_device_ d0') (sr_session_ d0'))
                     d0')) as Hsame.
    fold dI in Hsame. injection Hsame as Hdev Hses _ _ _ _ _ _ _ _ _ _.
    eexists. split; [done|]. simpl.
    split; [done|]. split; [done|]. split; [done|].
    split; [by rewrite Hdev|]. split.
    { intros Hopen. destruct (Hses0 Hopen) as [Hdevs Hcbs].
      rewrite Hses. simpl. by rewrite Hdevs, Hcbs, Hdev0. }
    unfold close, sr_device_close. simpl.
    destruct (drv_close_error drv'); simpl; eexists; by repeat split.
Qed.

(** ** The acquisition thread *)

(** X12. The acquisition thread of a device that [open] has returned: if
    the session fails to start, the error handler is called once, with the
    message of the failure, and the device stays as [open] left it, open
    and Running. If the session starts and every packet is handled to its
    end, the thread leaves the acquisition state Stopped and calls the
    error handler exactly when the session has failed, once; the device is
    still open and its session is as before: only [close] releases them. *)
Theorem acquisition_thread_after_open (bld : build) (drv : Driver)
    (r : session_run) (d : BaseDevice) :
  drv_open_error drv = None →
  ∃ d1, open drv d = Returned d1 ∧
        (∀ what, run_start_error r = Some what →
           aquisition_thread_proc bld r d1 = (Done d1, [what]) ∧
           aquisition_state_ d1 = Running ∧ device_open_ d1 = true) ∧
        (run_start_error r = None →
         ∀ d2 msgs, aquisition_thread_proc bld r d1 = (Done d2, msgs) →
           aquisition_state_ d2 = Stopped ∧
           msgs = (match run_error r with
                   | Some what => [what]
                   | None => []
                   end) ∧
           device_open_ d2 = true ∧ sr_session_ d2 = sr_session_ d1).
Proof.
  intros Hdrv.
  destruct (open_returns drv d Hdrv) as (d0 & d1 & Hopen & _ & _).
  exists d1. split; [exact Hopen|].
  assert (aquisition_state_ d1 = Running ∧ device_open_ d1 = true)
    as [Hstate Hflag].
  { revert Hopen. unfold open, sr_device_open. rewrite Hdrv.
    destruct (if device_open_ d then close drv d else Returned d);
      simpl; [|done]. by intros [= <-]. }
  split.
  - intros what Hstart. unfold aquisition_thread_proc. by rewrite Hstart.
  - intros Hstart d2 msgs. unfold aquisition_thread_proc. rewrite Hstart.
    destruct (data_feed bld (run_packets r) (set_aquisition_state_ Running d1))
      as [d'| |] eqn:Hfeed; [|done..].
    apply data_feed_untouched in Hfeed.
    injection Hfeed as _ Hses _ Hop _ _ _ _ _ _ _ _ _ _ _.
    simpl in Hses, Hop.
    destruct (run_error r); intros [= <- <-]; simpl;
      by rewrite Hses, Hop.
Qed.

Lemma acquisition_thread_after_open_witness :
  ∃ d1, open demo_driver demo_new = Returned d1 ∧
        (∀ what, run_start_error failed_start = Some what →
           aquisition_thread_proc AssertsOn failed_start d1
             = (Done d1, [what]) ∧
           aquisition_state_ d1 = Running ∧ device_open_ d1 = true) ∧
        (run_start_error failed_start = None →
         ∀ d2 msgs,
           aquisition_thread_proc AssertsOn failed_start d1 = (Done d2, msgs) →
           aquisition_state_ d2 = Stopped ∧
           msgs = (match run_error failed_start with
                   | Some what => [what]
                   | None => []
                   end) ∧
           device_open_ d2 = true ∧ sr_session_ d2 = sr_session_ d1).
Proof.
  apply (acquisition_thread_after_open AssertsOn demo_driver failed_start
           demo_new).
  reflexivity.
Defined.

(** The demo device over a session that fails after a frame and two
    packets: the handler gets the one message, the device ends Stopped and
    open, with the samples of the analog packet. *)
Example demo_thread :
  ∃ d2, aquisition_thread_proc AssertsOn demo_run demo_open
          = (Done d2, ["device disconnected"]) ∧
        aquisition_state_ d2 = Stopped ∧ device_open_ d2 = true ∧
        length (signal_of d2 0) = 3.
Proof. eexists. split; [vm_compute; reflexivity|]. by vm_compute. Qed.

(** ** The channels the driver lists are registered *)

Lemma lookup_inv_same (cs : list sr_channel) (d d' : BaseDevice) :
  same_registry d d' → lookup_inv cs d → lookup_inv cs d'.
Proof.
  intros (Hnm & _ & Hsr & Hch & _) Hinv c Hc. unfold registered.
  rewrite Hnm, Hsr, Hch. by apply Hinv.
Qed.

Lemma lookup_inv_new (cs : list sr_channel) (sr_device : nat) (ts : Q)
    (state0 : AquisitionState) :
  lookup_inv cs (BaseDevice_new sr_device ts state0).
Proof.
  intros c _. simpl. split.
  - intros p Hp. by rewrite lookup_empty in Hp.
  - rewrite lookup_empty. by intros [? ?].
Qed.

Lemma registered_untouched (d d' : BaseDevice) (c : sr_channel) (p : ptr) :
  untouched_by_packets d' = untouched_by_packets d →
  registered d c p → registered d' c p.
Proof.
  intros Hsame [Hm Hl].
  injection Hsame as _ _ _ _ _ _ _ _ _ _ _ Hsr _ Hlen _.
  unfold registered. by rewrite Hsr, Hlen.
Qed.

Lemma registered_all (d : BaseDevice) (cs : list sr_channel) :
  (∀ c, c ∈ cs → ∃ p, registered d c p) →
  ∃ ps, Forall2 (registered d) cs ps.
Proof.
  induction cs as [|c cs IH]; intros Hreg; [by exists []|].
  destruct (Hreg c) as [p Hp]; [by left|].
  destruct IH as [ps Hps]; [intros c' Hc'; apply Hreg; by right|].
  exists (p :: ps). by constructor.
Qed.

(** The handling of a packet whose channels are registered completes. *)
Lemma data_feed_in_completes (bld : build) (cs : list sr_channel)
    (sr_device : nat) (sr_packet : Packet) (clock : nat → Z)
    (d : BaseDevice) :
  (∀ c, c ∈ cs → ∃ p, registered d c p) →
  analog_over cs sr_packet →
  ∃ d', data_feed_in bld sr_device sr_packet clock d = Done d'.
Proof.
  intros Hreg Hover. unfold data_feed_in.
  destruct (decide (sr_device ≠ sr_device_ d)); [by eexists|].
  destruct sr_packet as [| | | |a| | | |]; try (by eexists).
  - destruct (decide (aquisition_state_ d ≠ Running)); by eexists.
  - destruct (decide (aquisition_state_ d ≠ Running)); [by eexists|].
    unfold feed_in_analog.
    destruct (decide (num_samples a = 0)); [by eexists|].
    destruct (registered_all d (an_channels a)) as [ps Hps].
    { intros c Hc. apply Hreg. by apply Hover. }
    destruct (feed_in_analog_loop_registered bld a clock
                (resolved_samplerate d) (an_channels a) ps 0 d Hps)
      as (d' & Hrun & _).
    by exists d'.
Qed.

Lemma data_feed_completes (bld : build) (cs : list sr_channel)
    (ps : list delivery) :
  ∀ d, (∀ c, c ∈ cs → ∃ p, registered d c p) →
       Forall (λ dl, analog_over cs (dl_packet dl)) ps →
       ∃ d', data_feed bld ps d = Done d'.
Proof.
  induction ps as [|dl ps IH]; intros d Hreg Hover; [by exists d|].
  destruct (Forall_cons_1 _ _ _ Hover) as [Hdl Hrest].
  destruct (data_feed_in_completes bld cs (dl_device dl) (dl_packet dl)
              (dl_clock dl) d Hreg Hdl) as [d1 Hd1].
  simpl. rewrite Hd1. apply IH; [|done].
  intros c Hc. destruct (Hreg c Hc) as [p Hp]. exists p.
  eapply registered_untouched; [|done]. by eapply data_feed_in_untouched.
Qed.

Section listed_channels.

Context (cs : list sr_channel) (Hapart : named_apart cs).

(** One call of [add_sr_channel] for a channel of [cs] keeps the two maps
    in agreement. *)
Lemma add_sr_channel_lookup (c : sr_channel) (g : string) (d : BaseDevice) :
  c ∈ cs → registry_inv d → lookup_inv cs d →
  lookup_inv cs (add_sr_channel c g d).1.
Proof.
  intros Hc [I1 I2] Hinv.
  destruct (channel_name_map_ d !! sr_name c) as [p|] eqn:Hname.
  - destruct (I1 _ _ Hname) as (ch & Hch & Hn).
    destruct (add_sr_channel_found c g d p ch Hname Hch Hn)
      as (_ & Hnm & _ & Hheap & Hsr & _).
    intros c' Hc'. destruct (Hinv c' Hc') as [Ha Hb]. unfold registered.
    rewrite Hnm, Hsr. split; [|done].
    intros q Hq. destruct (Ha q Hq) as [Hm Hl]. split; [done|].
    rewrite Hheap. case_decide; [done|]. by rewrite length_insert.
  - destruct (add_sr_channel_created c g d Hname)
      as (_ & Hnm & _ & Hheap & Hsr & _).
    assert (sr_channel_map_ d !! sr_ptr c = None) as Hfree.
    { destruct (Hinv c Hc) as [_ Hb].
      destruct (sr_channel_map_ d !! sr_ptr c) eqn:E; [|done].
      destruct Hb as [? Hb]; [by eexists|]. congruence. }
    rewrite (map_insert_new_absent _ _ _ Hfree) in Hsr.
    intros c' Hc'. destruct (Hinv c' Hc') as [Ha Hb]. unfold registered.
    rewrite Hnm, Hsr, Hheap. split.
    + intros q [(Hn & <-)|(Hn & Hq)]%lookup_insert_Some.
      * apply (Hapart c c' Hc Hc') in Hn.
        rewrite <- Hn, lookup_insert_eq. split; [done|].
        rewrite length_app. simpl. lia.
      * destruct (Ha q Hq) as [Hm Hl]. split.
        -- rewrite lookup_insert_ne; [done|].
           intros Heq. rewrite Heq in Hfree. congruence.
        -- rewrite length_app. lia.
    + destruct (decide (sr_name c = sr_name c')) as [Heq|Hne].
      * intros _. rewrite <- Heq, lookup_insert_eq. by eexists.
      * assert (sr_ptr c ≠ sr_ptr c') as Hptr.
        { intros Heq. apply Hne. by apply (Hapart c c' Hc Hc'). }
        by rewrite !lookup_insert_ne by done.
Qed.

Lemma add_all_lookup (calls : list (sr_channel * string)) :
  ∀ d, Forall (λ call, call.1 ∈ cs) calls →
       registry_inv d → lookup_inv cs d →
       lookup_inv cs (add_all calls d).
Proof.
  induction calls as [|call calls IH]; intros d Hcalls Hinv Hlk; [done|].
  destruct (Forall_cons_1 _ _ _ Hcalls) as [Hc Hrest].
  change (add_all (call :: calls) d)
    with (add_all calls (add_sr_channel call.1 call.2 d).1).
  apply IH; [done| |].
  - by apply add_sr_channel_spec.
  - by apply add_sr_channel_lookup.
Qed.

(** The second loop of [init_channels]: a channel it skips has its name in
    the name map already, and one it adds has it afterwards. *)
Lemma init_other_channels_lookup (chans : list sr_channel) :
  ∀ d, (∀ c, c ∈ chans → c ∈ cs) → registry_inv d → lookup_inv cs d →
       registry_inv (init_other_channels chans d) ∧
       lookup_inv cs (init_other_channels chans d) ∧
       registry_le d (init_other_channels chans d) ∧
       ∀ c, c ∈ chans →
            is_Some (channel_name_map_ (init_other_channels chans d)
                       !! sr_name c).
Proof.
  induction chans as [|c chans IH]; intros d Hsub Hinv Hlk.
  - split; [done|]. split; [done|]. split; [apply registry_le_refl|].
    by intros c ?%elem_of_nil.
  - set (d1 := if decide (is_Some (sr_channel_map_ d !! sr_ptr c))
               then d else (add_sr_channel c "" d).1).
    change (init_other_channels (c :: chans) d)
      with (init_other_channels chans d1).
    assert (registry_inv d1 ∧ lookup_inv cs d1 ∧ registry_le d d1 ∧
            is_Some (channel_name_map_ d1 !! sr_name c))
      as (Hinv1 & Hlk1 & Hle1 & [p Hp]).
    { assert (c ∈ cs) as Hc by (apply Hsub; by left).
      subst d1.
      destruct (decide (is_Some (sr_channel_map_ d !! sr_ptr c)))
        as [Hsome|Hnone].
      - split; [done|]. split; [done|]. split; [apply registry_le_refl|].
        by apply (Hlk c Hc).
      - destruct (add_sr_channel_spec c "" d Hinv)
          as (Hi & Hle & (Hm & _) & _).
        split; [done|]. split; [by apply add_sr_channel_lookup|].
        split; [done|]. by eexists. }
    destruct (IH d1) as (Hinv' & Hlk' & Hle' & Hnames); [|done..|].
    { intros c' Hc'. apply Hsub. by right. }
    split; [done|]. split; [done|].
    split; [by eapply registry_le_trans|].
    intros c' [->|Hc']%elem_of_cons; [|by apply Hnames].
    exists p. by apply Hle'.
Qed.

End listed_channels.

Lemma demo_named_apart : named_apart (listed demo_driver).
Proof.
  intros c c' Hc Hc'. vm_compute in Hc, Hc'.
  repeat (apply elem_of_cons in Hc as [->|Hc]);
    try (by apply elem_of_nil in Hc);
    repeat (apply elem_of_cons in Hc' as [->|Hc']);
    try (by apply elem_of_nil in Hc'); by split.
Qed.

(** [open] on a device whose maps agree, over a driver whose channels are
    told apart by their names. *)
Lemma open_registers_listed (drv : Driver) (d : BaseDevice) :
  registry_inv d →
  lookup_inv (listed drv) d →
  named_apart (listed drv) →
  drv_open_error drv = None →
  ∃ d', open drv d = Returned d' ∧
        registry_inv d' ∧ lookup_inv (listed drv) d' ∧
        (∀ c, c ∈ listed drv →
              ∃ p, registered d' c p ∧
                   channel_name_map_ d' !! sr_name c = Some p) ∧
        (∀ cg c, cg ∈ drv_channel_groups drv → c ∈ cg_channels cg →
                 ∃ p, member_of d' (sr_name c) (cg_name cg) p).
Proof.
  intros Hinv Hlk Hapart Hdrv.
  destruct (open_returns drv d Hdrv) as (d1 & d' & Hopen & Hsame1 & Hsame').
  exists d'. split; [exact Hopen|].
  pose proof (registry_inv_same _ _ Hsame1 Hinv) as Hinv1.
  pose proof (lookup_inv_same _ _ _ Hsame1 Hlk) as Hlk1.
  unfold init_channels in Hsame'.
  set (dg := init_group_channels (drv_channel_groups drv) d1) in *.
  assert (registry_inv dg ∧ lookup_inv (listed drv) dg ∧
          ∀ cg c, cg ∈ drv_channel_groups drv → c ∈ cg_channels cg →
                  ∃ p, member_of dg (sr_name c) (cg_name cg) p)
    as (Hinvg & Hlkg & Hmemg).
  { subst dg. rewrite init_group_channels_calls.
    destruct (add_all_spec (group_listing (drv_channel_groups drv)) d1 Hinv1)
      as (Hi & _ & ps & _ & Hmem).
    split; [done|]. split.
    - apply add_all_lookup; [done| |done..].
      apply Forall_forall. intros [c g] Hin. unfold group_listing in Hin.
      apply list_elem_of_bind in Hin as (cg & Hin & Hcg).
      apply list_elem_of_fmap in Hin as (c0 & [= -> ->] & Hc0). simpl.
      unfold listed. apply elem_of_app. left.
      apply list_elem_of_bind. by exists cg.
    - intros cg c Hcg Hc.
      pose proof (group_listing_elem _ _ _ Hcg Hc)
        as [i Hi']%list_elem_of_lookup.
      destruct (Forall2_lookup_r _ _ _ _ _ Hmem Hi') as (p & _ & Hp).
      by exists p. }
  destruct (init_other_channels_lookup (listed drv) Hapart (drv_channels drv)
              dg) as (Hinvo & Hlko & Hleo & Hnameso); [|done..|].
  { intros c Hc. unfold listed. apply elem_of_app. by right. }
  set (do := init_other_channels (drv_channels drv) dg) in *.
  pose proof (registry_inv_same _ _ Hsame' Hinvo) as Hinv'.
  pose proof (lookup_inv_same _ _ _ Hsame' Hlko) as Hlk'.
  split; [done|]. split; [done|]. split.
  - intros c Hc.
    assert (is_Some (channel_name_map_ do !! sr_name c)) as [p Hp].
    { unfold listed in Hc. apply elem_of_app in Hc as [Hc|Hc].
      - apply list_elem_of_bind in Hc as (cg & Hc & Hcg).
        destruct (Hmemg cg c Hcg Hc) as (p & Hp & _). exists p.
        by apply Hleo.
      - by apply Hnameso. }
    destruct Hsame' as (Hnm & _). rewrite <- Hnm in Hp.
    exists p. split; [|done]. by apply (Hlk' c Hc).
  - intros cg c Hcg Hc. destruct (Hmemg cg c Hcg Hc) as [p Hp]. exists p.
    eapply member_of_same; [exact Hsame'|]. by eapply member_of_le.
Qed.

(** X13. A device whose name map and [sr_channel_map_] agree (a new device,
    or one that [open] has returned before), over a driver whose channels
    are told apart by their names: [open] returns, keeps the two maps in
    agreement, and every channel the driver lists, in a channel group or
    not, is registered in [sr_channel_map_] with a Channel of the store.
    Hence the handling of whatever packets of whatever devices completes,
    in both builds, as long as the analog packets name listed channels
    only: no null Channel is dereferenced and no assertion fails. *)
Theorem packets_over_listed_channels_complete (drv : Driver)
    (d : BaseDevice) :
  registry_inv d →
  lookup_inv (listed drv) d →
  named_apart (listed drv) →
  drv_open_error drv = None →
  ∃ d', open drv d = Returned d' ∧
        registry_inv d' ∧ lookup_inv (listed drv) d' ∧
        (∀ c, c ∈ listed drv →
              ∃ p, registered d' c p ∧
                   channel_name_map_ d' !! sr_name c = Some p) ∧
        (∀ bld ps,
           Forall (λ dl, analog_over (listed drv) (dl_packet dl)) ps →
           ∃ d'', data_feed bld ps d' = Done d'').
Proof.
  intros Hinv Hlk Hapart Hdrv.
  destruct (open_registers_listed drv d Hinv Hlk Hapart Hdrv)
    as (d' & Hopen & Hinv' & Hlk' & Hreg & _).
  exists d'. split; [done|]. split; [done|]. split; [done|]. split; [done|].
  intros bld ps Hover. apply (data_feed_completes bld (listed drv)); [|done].
  intros c Hc. destruct (Hreg c Hc) as (p & Hp & _). by exists p.
Qed.

Lemma packets_over_listed_channels_complete_witness :
  ∃ d', open demo_driver demo_new = Returned d' ∧
        registry_inv d' ∧ lookup_inv (listed demo_driver) d' ∧
        (∀ c, c ∈ listed demo_driver →
              ∃ p, registered d' c p ∧
                   channel_name_map_ d' !! sr_name c = Some p) ∧
        (∀ bld ps,
           Forall (λ dl, analog_over (listed demo_driver) (dl_packet dl)) ps →
           ∃ d'', data_feed bld ps d' = Done d'').
Proof.
  apply (packets_over_listed_channels_complete demo_driver demo_new).
  - apply registry_inv_new.
  - apply lookup_inv_new.
  - apply demo_named_apart.
  - reflexivity.
Defined.

(** The names are needed: of two listed channels of one name the second
    finds the Channel of the first and is not entered in
    [sr_channel_map_]; an analog packet for it dereferences a null
    Channel, in both builds. *)
Example twin_channel_is_not_registered :
  ∃ d', open twin_driver demo_new = Returned d' ∧
        sr_channel_map_ d' !! sr_ptr CH1_twin = None ∧
        group_list d' "" = [0; 0] ∧
        ∀ bld, ∃ d'',
          data_feed_in bld 7 (SR_DF_ANALOG twin_analog) (clock_from 0) d'
            = NullChannel d''.
Proof.
  eexists. split; [vm_compute; reflexivity|].
  split; [by vm_compute|]. split; [by vm_compute|].
  intros []; eexists; vm_compute; reflexivity.
Qed.

(** ** Opening a device again *)

(** [add_sr_channel] for channels that are registered under the name and
    the group of the call already: no Channel and no map changes but the
    group map, where the Channel is entered once more, and one
    notification is emitted per call. *)
Lemma add_all_again (calls : list (sr_channel * string)) :
  ∀ d, Forall (λ call, ∃ p, member_of d (sr_name call.1) call.2 p) calls →
       channels_ (add_all calls d) = channels_ d ∧
       channel_name_map_ (add_all calls d) = channel_name_map_ d ∧
       sr_channel_map_ (add_all calls d) = sr_channel_map_ d ∧
       emitted_ (add_all calls d)
         = emitted_ d ++ ((λ call, channel_added (channel_of d call.1))
                            <$> calls) ∧
       ∀ g, group_list (add_all calls d) g
            = group_list d g ++ calls_for d g calls.
Proof.
  induction calls as [|call calls IH]; intros d Hall.
  - unfold calls_for. simpl. rewrite app_nil_r. do 4 (split; [done|]).
    intros g. by rewrite app_nil_r.
  - destruct (Forall_cons_1 _ _ _ Hall)
      as [(p & Hnm & Hin & ch & Hch & Hn & Hg) Hrest].
    destruct (add_sr_channel_found call.1 call.2 d p ch Hnm Hch Hn)
      as (_ & Hnm1 & Hgl1 & Hheap1 & Hsr1 & Hem1).
    rewrite decide_True in Hheap1 by done.
    change (add_all (call :: calls) d)
      with (add_all calls (add_sr_channel call.1 call.2 d).1).
    set (d1 := (add_sr_channel call.1 call.2 d).1) in *.
    destruct (IH d1) as (Hheap' & Hnm' & Hsr' & Hem' & Hgl').
    { eapply Forall_impl; [exact Hrest|].
      intros call' (p' & Hnm0 & Hin0 & Hch0). exists p'.
      unfold member_of. rewrite Hnm1, Hheap1, Hgl1.
      split; [done|]. split; [|done].
      case_decide as Hg'; [|done]. rewrite Hg' in Hin0.
      apply elem_of_app. by left. }
    assert (∀ c, channel_of d1 c = channel_of d c) as Hco.
    { intros c. unfold channel_of. by rewrite Hnm1. }
    assert (channel_of d call.1 = p) as Hp.
    { unfold channel_of. by rewrite Hnm. }
    split; [congruence|]. split; [congruence|]. split; [congruence|].
    split.
    + rewrite Hem', Hem1, <- app_assoc. simpl. rewrite Hp. do 2 f_equal.
      apply list_fmap_ext. intros _ call' _. by rewrite Hco.
    + intros g. rewrite Hgl', Hgl1.
      assert (calls_for d1 g calls = calls_for d g calls) as ->.
      { unfold calls_for. apply list_fmap_ext. intros _ call' _. apply Hco. }
      unfold calls_for at 2. rewrite filter_cons.
      destruct (decide (call.2 = g)) as [<-|Hne].
      * rewrite decide_True by done. rewrite fmap_cons, Hp.
        by rewrite <- app_assoc.
      * rewrite decide_False by done. done.
Qed.

(** The second loop of [init_channels] does nothing when every channel is
    a key of [sr_channel_map_]. *)
Lemma init_other_channels_skip (chans : list sr_channel) (d : BaseDevice) :
  (∀ c, c ∈ chans → is_Some (sr_channel_map_ d !! sr_ptr c)) →
  init_other_channels chans d = d.
Proof.
  induction chans as [|c chans IH]; intros Hall; [done|].
  unfold init_other_channels. simpl.
  rewrite decide_True by (apply Hall; by left).
  apply IH. intros c' Hc'. apply Hall. by right.
Qed.

(** X14. Opening a device twice over the same driver (under the
    conditions of X13): the second [open] returns, makes no Channel and
    changes neither a Channel nor the name map nor [sr_channel_map_]; but
    it enters every channel of every channel group once more in the list
    of its group in the group map, and emits [channel_added] once more for
    each of them, in the order of the driver's listing. The channels that
    are in no channel group are skipped. *)
Theorem reopen_repeats_group_entries (drv : Driver) (d : BaseDevice) :
  registry_inv d →
  lookup_inv (listed drv) d →
  named_apart (listed drv) →
  drv_open_error drv = None →
  ∃ d1 d2, open drv d = Returned d1 ∧ open drv d1 = Returned d2 ∧
           channels_ d2 = channels_ d1 ∧
           channel_name_map_ d2 = channel_name_map_ d1 ∧
           sr_channel_map_ d2 = sr_channel_map_ d1 ∧
           notified d1 d2
             = (λ call, channel_added (channel_of d1 call.1))
                 <$> group_listing (drv_channel_groups drv) ∧
           ∀ g, group_list d2 g
                = group_list d1 g ++
                  calls_for d1 g (group_listing (drv_channel_groups drv)).
Proof.
  intros Hinv Hlk Hapart Hdrv.
  destruct (open_registers_listed drv d Hinv Hlk Hapart Hdrv)
    as (d1 & Hopen1 & Hinv1 & Hlk1 & Hreg1 & Hmem1).
  destruct (open_returns drv d1 Hdrv) as (d1' & d2 & Hopen2 & Hs1 & Hs2).
  exists d1, d2. split; [done|]. split; [done|].
  destruct (add_all_again (group_listing (drv_channel_groups drv)) d1')
    as (Hheap & Hnm & Hsr & Hem & Hgl).
  { apply Forall_forall. intros [c g] Hin. unfold group_listing in Hin.
    apply list_elem_of_bind in Hin as (cg & Hin & Hcg).
    apply list_elem_of_fmap in Hin as (c0 & [= -> ->] & Hc0). simpl.
    destruct (Hmem1 cg c0 Hcg Hc0) as [p Hp]. exists p.
    by eapply member_of_same. }
  unfold init_channels in Hs2.
  rewrite init_group_channels_calls, init_other_channels_skip in Hs2.
  2:{ intros c Hc. rewrite Hsr. destruct Hs1 as (_ & _ & -> & _).
      destruct (Hreg1 c) as (p & [Hp _] & _).
      - unfold listed. apply elem_of_app. by right.
      - by eexists. }
  destruct Hs1 as (Hn1 & Hg1 & Hsr1 & Hc1 & He1).
  destruct Hs2 as (Hn2 & Hg2 & Hsr2 & Hc2 & He2).
  assert (∀ c, channel_of d1' c = channel_of d1 c) as Hco.
  { intros c. unfold channel_of. by rewrite Hn1. }
  split; [congruence|]. split; [congruence|]. split; [congruence|]. split.
  - unfold notified. rewrite He2, Hem, He1, drop_app_length.
    apply list_fmap_ext. intros _ call _. by rewrite Hco.
  - intros g. unfold group_list at 1. rewrite Hg2.
    fold (group_list (add_all (group_listing (drv_channel_groups drv)) d1') g).
    rewrite Hgl. unfold group_list at 1. rewrite Hg1.
    fold (group_list d1 g). f_equal.
    unfold calls_for. apply list_fmap_ext. intros _ call _. apply Hco.
Qed.

Lemma reopen_repeats_group_entries_witness :
  ∃ d1 d2, open demo_driver demo_new = Returned d1 ∧
           open demo_driver d1 = Returned d2 ∧
           channels_ d2 = channels_ d1 ∧
           channel_name_map_ d2 = channel_name_map_ d1 ∧
           sr_channel_map_ d2 = sr_channel_map_ d1 ∧
           notified d1 d2
             = (λ call, channel_added (channel_of d1 call.1))
                 <$> group_listing (drv_channel_groups demo_driver) ∧
           ∀ g, group_list d2 g
                = group_list d1 g ++
                  calls_for d1 g
                    (group_listing (drv_channel_groups demo_driver)).
Proof.
  apply (reopen_repeats_group_entries demo_driver demo_new).
  - apply registry_inv_new.
  - apply lookup_inv_new.
  - apply demo_named_apart.
  - reflexivity.
Defined.

(** The demo device opened twice: two Channels as before, CH1 twice in the
    list of group A and CH1 and CH2 twice in the one of group B, and three
    more notifications. *)
Example demo_reopen :
  ∃ d2, open demo_driver demo_open = Returned d2 ∧
        length (channels_ d2) = 2 ∧
        group_list d2 "A" = [0; 0] ∧
        group_list d2 "B" = [0; 1; 0; 1] ∧
        notified demo_open d2
          = [channel_added 0; channel_added 0; channel_added 1].
Proof. eexists. split; [vm_compute; reflexivity|]. by vm_compute. Qed.

(** ** Timestamps inside and outside a frame *)






(** On the demo device the frame that began at millisecond 1000 is closed
    by the FrameEnd: the packet handled inside it is stamped 1000, the one
    after it with the clock, 5000 for CH1 and 5001 for CH2. *)
Example demo_frame_then_clock :
  ∃ d1, data_feed_in AssertsOn 7 (SR_DF_ANALOG demo_analog) (clock_from 5000)
          demo_after_frame = Done d1 ∧
        frame_began_ demo_in_frame = true ∧
        frame_began_ demo_after_frame = false ∧
        s_timestamp <$> signal_of demo_after_frame 0
          = replicate 3 (Qmake 1000 1000) ∧
        s_timestamp <$> new_samples demo_after_frame d1 0
          = replicate 3 (Qmake 5000 1000) ∧
        s_timestamp <$> new_samples demo_after_frame d1 1
          = replicate 3 (Qmake 5001 1000).
Proof. eexists. split; [vm_compute; reflexivity|]. by vm_compute. Qed.

